(** * Angle-based outlier detection (pyod.models.abod)

    A shallow embedding of [src/pyod/models/abod.py] and the properties of
    its specification.

    Numbers.  The module computes with float64.  The properties below are
    algebraic (symmetry, a closed formula for the weighted cosine, equality of
    two variances), so scalars are modelled as real numbers [R]; rounding,
    overflow and underflow are outside the model.  The two float effects the
    code can actually meet in exact arithmetic are kept explicit:
    - a division by zero inside the [@njit] function [_wcos] raises
      ZeroDivisionError (numba's default error model), modelled by [Raise];
    - [np.var] of an empty list is not-a-number, modelled by [NaN]. *)

From Stdlib Require Import String Reals Lra Lia Bool Arith ZArith List Permutation.
Import ListNotations.
Local Open Scope R_scope.

(** ** Exceptions and results *)

Inductive exn : Type :=
| ValueError
| ZeroDivisionError
| IndexError
| AttributeError
| NotFittedError.

Inductive result (A : Type) : Type :=
| Ok (a : A)
| Raise (e : exn).

Arguments Ok {A} a.
Arguments Raise {A} e.

Definition rbind {A B : Type} (r : result A) (k : A -> result B) : result B :=
  match r with
  | Ok a => k a
  | Raise e => Raise e
  end.

Declare Scope result_scope.
Delimit Scope result_scope with result.
Notation "x <- r ;; k" := (rbind r (fun x => k))
  (at level 61, r at next level, right associativity) : result_scope.
Notation "r ;; k" := (rbind r (fun _ => k))
  (at level 61, right associativity) : result_scope.
Local Open Scope result_scope.

(** ** Arrays *)

(** A 1-D float array (a point, a row of the data matrix). *)
Definition Point : Type := list R.

(** A 2-D float array as the list of its rows. *)
Definition Matrix : Type := list Point.

(** A float64 value as the code can observe it in exact arithmetic. *)
Inductive npfloat : Type :=
| Fin (x : R)
| NaN.

Fixpoint zip_with {A B C : Type} (f : A -> B -> C) (x : list A) (y : list B)
  : list C :=
  match x, y with
  | xi :: x', yi :: y' => f xi yi :: zip_with f x' y'
  | _, _ => []
  end.

(** Elementwise difference and inner product of two arrays of one length. *)
Definition vsub (x y : Point) : Point := zip_with Rminus x y.

Definition Rsum (l : list R) : R := fold_right Rplus 0 l.

Definition dot (x y : Point) : R := Rsum (zip_with Rmult x y).

(** [x - y] on 1-D arrays, with numpy's broadcasting of a length-1 operand;
    any other shape mismatch raises. *)
Definition np_sub (x y : Point) : result Point :=
  if Nat.eqb (length x) (length y) then Ok (vsub x y)
  else match x, y with
       | [x0], _ => Ok (map (fun yi => x0 - yi) y)
       | _, [y0] => Ok (map (fun xi => xi - y0) x)
       | _, _ => Raise ValueError
       end.

(** [np.dot] on two 1-D arrays. *)
Definition np_dot (x y : Point) : result R :=
  if Nat.eqb (length x) (length y) then Ok (dot x y)
  else Raise ValueError.

(** [np.linalg.norm(x, 2)] on a 1-D array. *)
Definition linalg_norm (x : Point) : R := sqrt (dot x x).

(** Float division inside an [@njit] function. *)
Definition njit_div (x y : R) : result R :=
  if Req_dec_T y 0 then Raise ZeroDivisionError else Ok (x / y).

(** [np.array_equal] on 1-D arrays: same shape and same elements. *)
Definition array_equal (x y : Point) : bool :=
  if list_eq_dec Req_dec_T x y then true else false.

(** ** [_wcos] *)

Definition _wcos (curr_pt a b : Point) : result R :=
  a_curr <- np_sub a curr_pt ;;
  b_curr <- np_sub b curr_pt ;;
  d <- np_dot a_curr b_curr ;;
  q <- njit_div d (linalg_norm a_curr ^ 2) ;;
  njit_div q (linalg_norm b_curr ^ 2).

(** ** [_calculate_wocs] *)

(** [itertools.combinations(l, 2)]: pairs of positions [i < j], in
    lexicographic order of positions. *)
Fixpoint combinations2 {A : Type} (l : list A) : list (A * A) :=
  match l with
  | [] => []
  | x :: t => map (pair x) t ++ combinations2 t
  end.

(** [X[i, :]] for a non-negative index. *)
Definition getrow (X : Matrix) (i : nat) : result Point :=
  match nth_error X i with
  | Some r => Ok r
  | None => Raise IndexError
  end.

(** The [for] loop of [_calculate_wocs]; [wcos_list] is the accumulator the
    loop appends to. *)
Fixpoint wocs_loop (curr_pt : Point) (X : Matrix)
    (curr_pair_inds : list (nat * nat)) (wcos_list : list R)
  : result (list R) :=
  match curr_pair_inds with
  | [] => Ok wcos_list
  | (a_ind, b_ind) :: rest =>
      a <- getrow X a_ind ;;
      b <- getrow X b_ind ;;
      if array_equal a curr_pt || array_equal b curr_pt
      then wocs_loop curr_pt X rest wcos_list
      else w <- _wcos curr_pt a b ;;
           wocs_loop curr_pt X rest (wcos_list ++ [w])
  end.

(** [np.var(l)] with the default [ddof=0]: the mean of the squared deviations
    from the mean; both divisions are by the number of items, and on an empty
    list they are 0/0, which numpy returns as nan (with a warning). *)
Definition np_mean (l : list R) : R := Rsum l / INR (length l).

Definition np_var (l : list R) : npfloat :=
  match l with
  | [] => NaN
  | _ :: _ =>
      Fin (Rsum (map (fun x => (x - np_mean l) * (x - np_mean l)) l)
           / INR (length l))
  end.

Definition _calculate_wocs (curr_pt : Point) (X : Matrix) (X_ind : list nat)
  : result npfloat :=
  wcos_list <- wocs_loop curr_pt X (combinations2 X_ind) [] ;;
  Ok (np_var wcos_list).

(** ** Collaborators outside this module *)

(** [sklearn.utils.check_array] with its defaults, as far as this module
    relies on it: the input must be a 2-D array (rows of one length) with at
    least one sample and one feature, and is returned unchanged. *)
Definition check_array (X : Matrix) : result Matrix :=
  match X with
  | [] => Raise ValueError
  | r :: _ =>
      if Nat.eqb (length r) 0 then Raise ValueError
      else if forallb (fun r' => Nat.eqb (length r') (length r)) X then Ok X
      else Raise ValueError
  end.

(** Modelled from the spec: [pyod.utils.utility.check_parameter] is not part
    of the sources at hand.  The call site passes [(n_neighbors, 1, n_train_)]
    and the specification states the accepted range as [1 <= k <= n - 1],
    failing with a parameter-range error otherwise.  The detector below takes
    the helper as a parameter; this is the instance the specification
    describes. *)
Definition check_parameter_spec (param low high : Z) : result unit :=
  if ((low <=? param) && (param <? high))%Z then Ok tt else Raise ValueError.

(** Euclidean distance from [q] to row [i] of [T]. *)
Definition dist_to (T : Matrix) (q : Point) (i : nat) : R :=
  linalg_norm (vsub (nth i T []) q).

Fixpoint insert_by_dist (T : Matrix) (q : Point) (i : nat) (l : list nat)
  : list nat :=
  match l with
  | [] => [i]
  | j :: l' =>
      if Rle_dec (dist_to T q i) (dist_to T q j) then i :: l
      else j :: insert_by_dist T q i l'
  end.

(** Indices ordered nearest first; equidistant rows keep their order. *)
Definition sort_by_dist (T : Matrix) (q : Point) (l : list nat) : list nat :=
  fold_right (insert_by_dist T q) [] l.

(** The spatial index ([sklearn.neighbors.KDTree]) is opaque to this module;
    it is represented by the rows it was built from. *)
Record KDTree : Type := mkKDTree { tree_data : Matrix }.

(** [tree.query(Q, k)], indices only: for every row of [Q] the [k] nearest
    rows of the indexed data, nearest first.  The query rows must have the
    dimension of the indexed data and [1 <= k <= n]. *)
Definition tree_query (t : KDTree) (Q : Matrix) (k : Z)
  : result (list (list nat)) :=
  let T := tree_data t in
  if ((1 <=? k) && (k <=? Z.of_nat (length T)))%Z
     && forallb (fun q => Nat.eqb (length q) (length (nth 0 T []))) Q
  then Ok (map (fun q => firstn (Z.to_nat k)
                           (sort_by_dist T q (seq 0 (length T)))) Q)
  else Raise ValueError.

(** [NearestNeighbors(n_neighbors=k).fit(T).kneighbors(n_neighbors=k,
    return_distance=False)]: called without query points, every indexed row
    is queried and is not considered its own neighbour; this needs
    [1 <= k < n]. *)
Definition kneighbors (T : Matrix) (k : Z) : result (list (list nat)) :=
  if ((1 <=? k) && (k <? Z.of_nat (length T)))%Z
  then Ok (map (fun i => firstn (Z.to_nat k)
                           (sort_by_dist T (nth i T [])
                              (List.remove Nat.eq_dec i (seq 0 (length T)))))
             (seq 0 (length T)))
  else Raise ValueError.

(** ** Score arrays *)

(** [decision_scores_] and [pred_score] are [(n, 1)] arrays while they are
    filled and flat arrays after [ravel]. *)
Inductive ndarray : Type :=
| Arr2 (rows : list (list npfloat))
| Arr1 (items : list npfloat).

Definition np_zeros2 (n m : nat) : ndarray := Arr2 (repeat (repeat (Fin 0) m) n).

Definition ravel (A : ndarray) : list npfloat :=
  match A with
  | Arr2 rows => concat rows
  | Arr1 items => items
  end.

Definition np_mul (x y : npfloat) : npfloat :=
  match x, y with
  | Fin a, Fin b => Fin (a * b)
  | _, _ => NaN
  end.

(** [arr * -1] on a flat array. *)
Definition flip (items : list npfloat) : list npfloat :=
  map (fun x => np_mul x (Fin (-1))) items.

Fixpoint list_set {A : Type} (i : nat) (v : A) (l : list A) : list A :=
  match l, i with
  | [], _ => []
  | _ :: t, O => v :: t
  | x :: t, S i' => x :: list_set i' v t
  end.

(** [A[i, j] = v]. *)
Definition setitem2 (A : ndarray) (i j : nat) (v : npfloat) : result ndarray :=
  match A with
  | Arr2 rows =>
      match nth_error rows i with
      | Some r =>
          if Nat.ltb j (length r)
          then Ok (Arr2 (list_set i (list_set j v r) rows))
          else Raise IndexError
      | None => Raise IndexError
      end
  | Arr1 _ => Raise IndexError
  end.

(** [A[i, :] = v]. *)
Definition setrow2 (A : ndarray) (i : nat) (v : npfloat) : result ndarray :=
  match A with
  | Arr2 rows =>
      match nth_error rows i with
      | Some r => Ok (Arr2 (list_set i (map (fun _ => v) r) rows))
      | None => Raise IndexError
      end
  | Arr1 _ => Raise IndexError
  end.

(** [l.remove(x)]: drops the first occurrence, raises when there is none. *)
Fixpoint list_remove (x : nat) (l : list nat) : result (list nat) :=
  match l with
  | [] => Raise ValueError
  | y :: t => if Nat.eqb y x then Ok t
              else t' <- list_remove x t ;; Ok (y :: t')
  end.

(** [ind_arr[i, :]]. *)
Definition getinds (ind_arr : list (list nat)) (i : nat) : result (list nat) :=
  match nth_error ind_arr i with
  | Some r => Ok r
  | None => Raise IndexError
  end.

(** ** The detector *)

Declare Scope py_scope.
Delimit Scope py_scope with py.

Section Detector.

(** [BaseDetector] is not part of the sources at hand.  What it owns
    ([contamination], [_classes], [threshold_], [labels_], ...) is kept in an
    abstract component of the detector, and its methods are parameters:
    [_set_n_classes] (called with [y = None]),
    [_process_decision_scores], which reads the flat [decision_scores_] and
    derives threshold and labels, and the test whether [threshold_] and
    [labels_] are present.  The range check [check_parameter(param, low,
    high)] of [pyod.utils.utility] is a parameter as well. *)
Variable BaseState : Type.
Variable check_parameter : Z -> Z -> Z -> result unit.
Variable _set_n_classes : BaseState -> BaseState.
Variable _process_decision_scores : list npfloat -> BaseState -> BaseState.
Variable has_threshold_labels : BaseState -> bool.

(** The attributes of an [ABOD] object; the fitted attributes are absent
    until [fit] assigns them. *)
Record ABOD : Type := mkABOD {
  base : BaseState;
  method : string;
  n_neighbors : Z;
  X_train_ : option Matrix;
  n_train_ : option nat;
  decision_scores_ : option ndarray;
  tree_ : option KDTree
}.

Definition set_base (v : BaseState) (s : ABOD) : ABOD :=
  mkABOD v (method s) (n_neighbors s) (X_train_ s) (n_train_ s)
    (decision_scores_ s) (tree_ s).
Definition set_X_train_ (v : Matrix) (s : ABOD) : ABOD :=
  mkABOD (base s) (method s) (n_neighbors s) (Some v) (n_train_ s)
    (decision_scores_ s) (tree_ s).
Definition set_n_train_ (v : nat) (s : ABOD) : ABOD :=
  mkABOD (base s) (method s) (n_neighbors s) (X_train_ s) (Some v)
    (decision_scores_ s) (tree_ s).
Definition set_decision_scores_ (v : ndarray) (s : ABOD) : ABOD :=
  mkABOD (base s) (method s) (n_neighbors s) (X_train_ s) (n_train_ s)
    (Some v) (tree_ s).
Definition set_tree_ (v : KDTree) (s : ABOD) : ABOD :=
  mkABOD (base s) (method s) (n_neighbors s) (X_train_ s) (n_train_ s)
    (decision_scores_ s) (Some v).

(** [ABOD(contamination, n_neighbors, method)]; the base part is what
    [BaseDetector.__init__] leaves. *)
Definition __init__ (b : BaseState) (n_neighbors : Z) (method : string)
  : ABOD :=
  mkABOD b method n_neighbors None None None None.

(** Methods run on the object and may raise; what they assigned before
    raising stays assigned. *)
Definition M (A : Type) : Type := ABOD -> ABOD * result A.

Definition mret {A : Type} (a : A) : M A := fun s => (s, Ok a).

Definition mbind {A B : Type} (c : M A) (k : A -> M B) : M B :=
  fun s => match c s with
           | (s', Ok a) => k a s'
           | (s', Raise e) => (s', Raise e)
           end.

Definition lift {A : Type} (r : result A) : M A := fun s => (s, r).

Definition read {A : Type} (f : ABOD -> A) : M A := fun s => (s, Ok (f s)).

Definition attr {A : Type} (o : option A) : result A :=
  match o with
  | Some a => Ok a
  | None => Raise AttributeError
  end.

Definition getattr {A : Type} (f : ABOD -> option A) : M A :=
  fun s => (s, attr (f s)).

Definition setattr (upd : ABOD -> ABOD) : M unit := fun s => (upd s, Ok tt).

Notation "x <- c ;; k" := (mbind c (fun x => k))
  (at level 61, c at next level, right associativity) : py_scope.
Notation "c ;; k" := (mbind c (fun _ => k))
  (at level 61, right associativity) : py_scope.

Fixpoint for_each {A : Type} (l : list A) (body : A -> M unit) : M unit :=
  match l with
  | [] => mret tt
  | x :: t => mbind (body x) (fun _ => for_each t body)
  end.

(** The bodies of [_fit_default], [_fit_fast] and [fit] are written once,
    with the two calls that decide which indices are scored as arguments:
    [knn] stands where the source calls [neigh.kneighbors] and [scorer] where
    it calls [_calculate_wocs].  The methods themselves are these bodies at
    [kneighbors] and [_calculate_wocs]; the arguments exist so that theorems
    can say which index list a body hands to the scorer. *)
Definition _fit_default_with
    (scorer : Point -> Matrix -> list nat -> result npfloat) : M unit :=
  (n <- getattr n_train_ ;;
   for_each (seq 0 n) (fun i =>
     X <- getattr X_train_ ;;
     curr_pt <- lift (getrow X i) ;;
     n' <- getattr n_train_ ;;
     X_ind <- lift (list_remove i (seq 0 n')) ;;
     X' <- getattr X_train_ ;;
     v <- lift (scorer curr_pt X' X_ind) ;;
     ds <- getattr decision_scores_ ;;
     ds' <- lift (setitem2 ds i 0 v) ;;
     setattr (set_decision_scores_ ds')))%py.

Definition _fit_default : M unit := _fit_default_with _calculate_wocs.

Definition _fit_fast_with
    (knn : Matrix -> Z -> result (list (list nat)))
    (scorer : Point -> Matrix -> list nat -> result npfloat) : M unit :=
  (k <- read n_neighbors ;;
   n <- getattr n_train_ ;;
   lift (check_parameter k 1 (Z.of_nat n)) ;;
   X <- getattr X_train_ ;;
   setattr (set_tree_ (mkKDTree X)) ;;
   ind_arr <- lift (knn X k) ;;
   for_each (seq 0 n) (fun i =>
     X <- getattr X_train_ ;;
     curr_pt <- lift (getrow X i) ;;
     X_ind <- lift (getinds ind_arr i) ;;
     X' <- getattr X_train_ ;;
     v <- lift (scorer curr_pt X' X_ind) ;;
     ds <- getattr decision_scores_ ;;
     ds' <- lift (setitem2 ds i 0 v) ;;
     setattr (set_decision_scores_ ds')))%py.

Definition _fit_fast : M unit := _fit_fast_with kneighbors _calculate_wocs.

Definition fit_with
    (knn : Matrix -> Z -> result (list (list nat)))
    (scorer : Point -> Matrix -> list nat -> result npfloat)
    (X : Matrix) : M unit :=
  (X <- lift (check_array X) ;;
   setattr (fun s => set_base (_set_n_classes (base s)) s) ;;
   setattr (set_X_train_ X) ;;
   setattr (set_n_train_ (length X)) ;;
   n <- getattr n_train_ ;;
   setattr (set_decision_scores_ (np_zeros2 n 1)) ;;
   m <- read method ;;
   (if String.eqb m "fast" then _fit_fast_with knn scorer
    else if String.eqb m "default" then _fit_default_with scorer
    else lift (Raise ValueError)) ;;
   ds <- getattr decision_scores_ ;;
   setattr (set_decision_scores_ (Arr1 (flip (ravel ds)))) ;;
   ds <- getattr decision_scores_ ;;
   setattr (fun s => set_base (_process_decision_scores (ravel ds) (base s)) s))%py.

(** [fit(X)] with [y = None]. *)
Definition fit (X : Matrix) : M unit :=
  fit_with kneighbors _calculate_wocs X.

Definition is_some {A : Type} (o : option A) : bool :=
  match o with Some _ => true | None => false end.

Definition check_is_fitted (present : bool) : result unit :=
  if present then Ok tt else Raise NotFittedError.

(** A [for i in range(len(X))] loop that fills the local [pred_score]. *)
Fixpoint pred_loop (body : nat -> ndarray -> result ndarray)
    (range : list nat) (pred_score : ndarray) : result ndarray :=
  match range with
  | [] => Ok pred_score
  | i :: rest =>
      (pred_score' <- body i pred_score ;;
       pred_loop body rest pred_score')%result
  end.

Definition _decision_function_default (self : ABOD) (X : Matrix)
  : result (list npfloat) :=
  (pred_score <-
     pred_loop (fun i pred_score =>
         curr_pt <- getrow X i ;;
         n <- attr (n_train_ self) ;;
         X_train <- attr (X_train_ self) ;;
         v <- _calculate_wocs curr_pt X_train (seq 0 n) ;;
         setrow2 pred_score i v)
       (seq 0 (length X)) (np_zeros2 (length X) 1) ;;
   Ok (ravel pred_score))%result.

Definition _decision_function_fast (self : ABOD) (X : Matrix)
  : result (list npfloat) :=
  (check_is_fitted (is_some (tree_ self)) ;;
   tree <- attr (tree_ self) ;;
   ind_arr <- tree_query tree X (n_neighbors self) ;;
   pred_score <-
     pred_loop (fun i pred_score =>
         curr_pt <- getrow X i ;;
         X_ind <- getinds ind_arr i ;;
         X_train <- attr (X_train_ self) ;;
         v <- _calculate_wocs curr_pt X_train X_ind ;;
         setrow2 pred_score i v)
       (seq 0 (length X)) (np_zeros2 (length X) 1) ;;
   Ok (ravel pred_score))%result.

Definition decision_function (self : ABOD) (X : Matrix)
  : result (list npfloat) :=
  (check_is_fitted
     (is_some (X_train_ self) && is_some (n_train_ self)
      && is_some (decision_scores_ self)
      && has_threshold_labels (base self)) ;;
   X <- check_array X ;;
   if String.eqb (method self) "fast"
   then r <- _decision_function_fast self X ;; Ok (flip r)
   else r <- _decision_function_default self X ;; Ok (flip r))%result.

End Detector.

Arguments mkABOD {BaseState}.
Arguments base {BaseState}.
Arguments method {BaseState}.
Arguments n_neighbors {BaseState}.
Arguments X_train_ {BaseState}.
Arguments n_train_ {BaseState}.
Arguments decision_scores_ {BaseState}.
Arguments tree_ {BaseState}.
Arguments set_base {BaseState}.
Arguments set_X_train_ {BaseState}.
Arguments set_n_train_ {BaseState}.
Arguments set_decision_scores_ {BaseState}.
Arguments set_tree_ {BaseState}.
Arguments __init__ {BaseState}.
Arguments M BaseState A : clear implicits.
Arguments mret {BaseState A}.
Arguments mbind {BaseState A B}.
Arguments lift {BaseState A}.
Arguments read {BaseState A}.
Arguments getattr {BaseState A}.
Arguments setattr {BaseState}.
Arguments for_each {BaseState A}.
Arguments _fit_default_with {BaseState} scorer.
Arguments _fit_default {BaseState}.
Arguments _fit_fast_with {BaseState} check_parameter knn scorer.
Arguments _fit_fast {BaseState} check_parameter.
Arguments fit_with {BaseState} check_parameter _set_n_classes
  _process_decision_scores knn scorer X.
Arguments fit {BaseState} check_parameter.
Arguments _decision_function_default {BaseState}.
Arguments _decision_function_fast {BaseState}.
Arguments decision_function {BaseState}.

(** * Properties *)

(** ** Vectors *)

Lemma zip_with_length {A B C : Type} (f : A -> B -> C) (x : list A) :
  forall y, length x = length y -> length (zip_with f x y) = length x.
Proof.
  induction x as [|xi x IH]; intros [|yi y] H; simpl in *; try congruence.
  f_equal. apply IH. congruence.
Qed.

Lemma vsub_length (a p : Point) :
  length a = length p -> length (vsub a p) = length p.
Proof. intros H. unfold vsub. rewrite zip_with_length; assumption. Qed.

Lemma dot_comm (u : Point) : forall v, dot u v = dot v u.
Proof.
  unfold dot. induction u as [|x u IH]; intros [|y v]; simpl; try reflexivity.
  rewrite IH. lra.
Qed.

Lemma dot_self_nonneg (u : Point) : 0 <= dot u u.
Proof.
  unfold dot. induction u as [|x u IH]; simpl; [lra|].
  pose proof (Rle_0_sqr x) as Hx. unfold Rsqr in Hx. lra.
Qed.

Lemma dot_self_zero (u : Point) : dot u u = 0 -> Forall (fun x => x = 0) u.
Proof.
  induction u as [|x u IH]; intros H; constructor.
  - pose proof (dot_self_nonneg u) as Hu. unfold dot in *. simpl in H. nra.
  - apply IH. pose proof (dot_self_nonneg u) as Hu.
    unfold dot in *. simpl in H. nra.
Qed.

(** Squaring the Euclidean norm undoes the square root. *)
Lemma linalg_norm_sq (u : Point) : linalg_norm u ^ 2 = dot u u.
Proof.
  unfold linalg_norm. rewrite <- Rsqr_pow2. apply Rsqr_sqrt, dot_self_nonneg.
Qed.

Lemma vsub_zero (a : Point) :
  forall p, length a = length p -> Forall (fun x => x = 0) (vsub a p) -> a = p.
Proof.
  unfold vsub.
  induction a as [|x a IH]; intros [|y p] Hlen H; simpl in *; try congruence.
  inversion H as [|? ? H0 Hr]; subst. f_equal; [lra|].
  apply IH; [congruence|assumption].
Qed.

(** A displacement has norm zero only for coinciding points. *)
Lemma norm_sq_nonzero (a p : Point) :
  length a = length p -> a <> p -> linalg_norm (vsub a p) ^ 2 <> 0.
Proof.
  intros Hlen Hne H. apply Hne. apply vsub_zero; [assumption|].
  apply dot_self_zero. rewrite <- linalg_norm_sq. exact H.
Qed.

Lemma norm_sq_zero_self (p : Point) : linalg_norm (vsub p p) ^ 2 = 0.
Proof.
  rewrite linalg_norm_sq. unfold dot, vsub.
  induction p as [|x p IH]; simpl; [reflexivity|]. rewrite IH. lra.
Qed.

Lemma array_equal_true (x y : Point) : array_equal x y = true <-> x = y.
Proof.
  unfold array_equal. destruct (list_eq_dec Req_dec_T x y); split;
    congruence.
Qed.

Lemma array_equal_false (x y : Point) : array_equal x y = false <-> x <> y.
Proof.
  unfold array_equal. destruct (list_eq_dec Req_dec_T x y); split;
    congruence.
Qed.

(** ** The weighted cosine *)

Lemma np_sub_same_length (a p : Point) :
  length a = length p -> np_sub a p = Ok (vsub a p).
Proof. intros H. unfold np_sub. rewrite H, Nat.eqb_refl. reflexivity. Qed.

Lemma np_sub_raises (x y : Point) (e : exn) :
  np_sub x y = Raise e -> e = ValueError.
Proof.
  unfold np_sub. destruct (Nat.eqb (length x) (length y)); [discriminate|].
  destruct x as [|? [|? ?]], y as [|? [|? ?]]; congruence.
Qed.

Lemma njit_div_nonzero (x y : R) : y <> 0 -> njit_div x y = Ok (x / y).
Proof. intros H. unfold njit_div. destruct (Req_dec_T y 0); congruence. Qed.

Lemma njit_div_zero (x : R) : njit_div x 0 = Raise ZeroDivisionError.
Proof. unfold njit_div. destruct (Req_dec_T 0 0); congruence. Qed.

(** The value [_wcos] computes, two divisions in a row. *)
Lemma _wcos_value (p a b : Point) :
  length a = length p -> length b = length p -> a <> p -> b <> p ->
  _wcos p a b =
  Ok (dot (vsub a p) (vsub b p) / linalg_norm (vsub a p) ^ 2
      / linalg_norm (vsub b p) ^ 2).
Proof.
  intros Ha Hb Hap Hbp. unfold _wcos.
  rewrite (np_sub_same_length a p Ha), (np_sub_same_length b p Hb). simpl.
  unfold np_dot. rewrite !vsub_length by assumption. rewrite Nat.eqb_refl.
  simpl. rewrite njit_div_nonzero by (apply norm_sq_nonzero; assumption).
  simpl. apply njit_div_nonzero, norm_sq_nonzero; assumption.
Qed.

(** The weighted cosine does not depend on the order of the two reference
    points, whatever they are: the value is the same and so is the exception
    when there is one. *)
Lemma _wcos_sym (p a b : Point) : _wcos p a b = _wcos p b a.
Proof.
  unfold _wcos.
  destruct (np_sub a p) as [u|e1] eqn:Hu, (np_sub b p) as [v|e2] eqn:Hv;
    cbn [rbind]; try reflexivity.
  - unfold np_dot. rewrite (Nat.eqb_sym (length v) (length u)).
    destruct (Nat.eqb (length u) (length v)); cbn [rbind]; [|reflexivity].
    rewrite (dot_comm v u).
    destruct (Req_dec_T (linalg_norm u ^ 2) 0) as [Zu|Nu],
             (Req_dec_T (linalg_norm v ^ 2) 0) as [Zv|Nv].
    + rewrite Zu, Zv, !njit_div_zero. reflexivity.
    + rewrite Zu, njit_div_zero, (njit_div_nonzero _ _ Nv). cbn [rbind].
      apply eq_sym, njit_div_zero.
    + rewrite Zv, njit_div_zero, (njit_div_nonzero _ _ Nu). cbn [rbind].
      apply njit_div_zero.
    + rewrite (njit_div_nonzero _ _ Nu), (njit_div_nonzero _ _ Nv). cbn [rbind].
      rewrite (njit_div_nonzero _ _ Nu), (njit_div_nonzero _ _ Nv).
      f_equal. unfold Rdiv. ring.
  - rewrite (np_sub_raises _ _ _ Hu), (np_sub_raises _ _ _ Hv). reflexivity.
Qed.

(** ** The scoring loop *)

(** The value a retained pair adds to [wcos_list]. *)
Definition wcos_of (p a b : Point) : R :=
  dot (vsub a p) (vsub b p) / linalg_norm (vsub a p) ^ 2
  / linalg_norm (vsub b p) ^ 2.

(** What the loop body appends for one index pair. *)
Definition pair_values (p : Point) (X : Matrix) (ab : nat * nat) : list R :=
  let a := nth (fst ab) X [] in
  let b := nth (snd ab) X [] in
  if array_equal a p || array_equal b p then [] else [wcos_of p a b].

(** All rows of [X] have the dimension of [p]. *)
Definition rows_of_dim (d : nat) (X : Matrix) : Prop :=
  Forall (fun r => length r = d) X.

Definition in_range (n : nat) (l : list nat) : Prop :=
  Forall (fun i => (i < n)%nat) l.

Lemma getrow_in_range (X : Matrix) (i : nat) :
  (i < length X)%nat -> getrow X i = Ok (nth i X []).
Proof.
  intros H. unfold getrow.
  rewrite (nth_error_nth' X [] H). reflexivity.
Qed.

Lemma rows_of_dim_nth (d : nat) (X : Matrix) (i : nat) :
  rows_of_dim d X -> (i < length X)%nat -> length (nth i X []) = d.
Proof.
  intros HX Hi. unfold rows_of_dim in HX. rewrite Forall_forall in HX.
  apply HX, nth_In, Hi.
Qed.

Lemma wocs_loop_values (p : Point) (X : Matrix) (pairs : list (nat * nat)) :
  rows_of_dim (length p) X ->
  Forall (fun ab => (fst ab < length X)%nat /\ (snd ab < length X)%nat) pairs ->
  forall acc,
    wocs_loop p X pairs acc = Ok (acc ++ flat_map (pair_values p X) pairs).
Proof.
  intros HX. induction pairs as [|[i j] pairs IH]; intros Hr acc.
  - simpl. rewrite app_nil_r. reflexivity.
  - inversion Hr as [|? ? [Hi Hj] Hr']; subst. simpl in Hi, Hj.
    cbn [wocs_loop flat_map].
    rewrite (getrow_in_range X i Hi), (getrow_in_range X j Hj).
    cbn [rbind]. unfold pair_values at 1. cbn [fst snd].
    destruct (array_equal (nth i X []) p) eqn:Ea;
      [cbn [orb app]; apply IH; assumption|].
    destruct (array_equal (nth j X []) p) eqn:Eb;
      [cbn [orb app]; apply IH; assumption|].
    cbn [orb]. apply array_equal_false in Ea, Eb.
    rewrite _wcos_value; try assumption;
      try (apply rows_of_dim_nth; assumption).
    cbn [rbind]. rewrite IH by assumption.
    rewrite <- app_assoc. reflexivity.
Qed.

Lemma combinations2_in {A : Type} (l : list A) :
  forall a b, In (a, b) (combinations2 l) -> In a l /\ In b l.
Proof.
  induction l as [|x t IH]; intros a b H; simpl in H; [contradiction|].
  apply in_app_or in H. destruct H as [H|H].
  - apply in_map_iff in H. destruct H as [y [Hy Hin]].
    inversion Hy; subst. split; [left; reflexivity|right; assumption].
  - destruct (IH a b H). split; right; assumption.
Qed.

Lemma combinations2_in_range (n : nat) (l : list nat) :
  in_range n l ->
  Forall (fun ab => (fst ab < n)%nat /\ (snd ab < n)%nat) (combinations2 l).
Proof.
  intros H. unfold in_range in H. rewrite Forall_forall in H.
  apply Forall_forall. intros [a b] Hab.
  destruct (combinations2_in l a b Hab). split; apply H; assumption.
Qed.

(** On a rectangular data matrix and valid indices the scorer returns the
    variance of the values of the retained pairs; it raises nothing. *)
Lemma _calculate_wocs_value (p : Point) (X : Matrix) (X_ind : list nat) :
  rows_of_dim (length p) X -> in_range (length X) X_ind ->
  _calculate_wocs p X X_ind =
  Ok (np_var (flat_map (pair_values p X) (combinations2 X_ind))).
Proof.
  intros HX Hr. unfold _calculate_wocs.
  rewrite wocs_loop_values;
    [reflexivity|assumption|apply combinations2_in_range; assumption].
Qed.

(** ** Order of the neighbours *)

Definition norm_pair (ab : nat * nat) : nat * nat :=
  if Nat.leb (fst ab) (snd ab) then ab else (snd ab, fst ab).

Lemma wcos_of_sym (p a b : Point) : wcos_of p a b = wcos_of p b a.
Proof. unfold wcos_of. rewrite (dot_comm (vsub a p)). unfold Rdiv. ring. Qed.

Lemma pair_values_swap (p : Point) (X : Matrix) (a b : nat) :
  pair_values p X (a, b) = pair_values p X (b, a).
Proof.
  unfold pair_values. cbn [fst snd]. rewrite orb_comm.
  rewrite wcos_of_sym. reflexivity.
Qed.

Lemma pair_values_norm (p : Point) (X : Matrix) (ab : nat * nat) :
  pair_values p X (norm_pair ab) = pair_values p X ab.
Proof.
  destruct ab as [a b]. unfold norm_pair. cbn [fst snd].
  destruct (Nat.leb a b); [reflexivity|apply pair_values_swap].
Qed.

Lemma norm_pair_swap (a b : nat) : norm_pair (a, b) = norm_pair (b, a).
Proof.
  unfold norm_pair. cbn [fst snd].
  destruct (Nat.leb a b) eqn:E1, (Nat.leb b a) eqn:E2; try reflexivity.
  - apply Nat.leb_le in E1, E2. f_equal; lia.
  - apply Nat.leb_gt in E1, E2. lia.
Qed.

Lemma combinations2_perm (l l' : list nat) :
  Permutation l l' ->
  Permutation (map norm_pair (combinations2 l))
              (map norm_pair (combinations2 l')).
Proof.
  induction 1 as [|x l l' HP IH|x y l|l l' l'' _ IH1 _ IH2].
  - constructor.
  - simpl. rewrite !map_app. apply Permutation_app; [|exact IH].
    apply Permutation_map, Permutation_map, HP.
  - simpl. rewrite !map_app. simpl.
    rewrite (norm_pair_swap y x). constructor.
    rewrite !app_assoc. apply Permutation_app_tail, Permutation_app_comm.
  - eapply Permutation_trans; eassumption.
Qed.

Lemma flat_map_norm_pair (p : Point) (X : Matrix) (l : list (nat * nat)) :
  flat_map (pair_values p X) (map norm_pair l) = flat_map (pair_values p X) l.
Proof.
  induction l as [|ab l IH]; simpl; [reflexivity|].
  rewrite pair_values_norm, IH. reflexivity.
Qed.

Lemma retained_values_perm (p : Point) (X : Matrix) (l l' : list nat) :
  Permutation l l' ->
  Permutation (flat_map (pair_values p X) (combinations2 l))
              (flat_map (pair_values p X) (combinations2 l')).
Proof.
  intros HP.
  rewrite <- (flat_map_norm_pair p X (combinations2 l)).
  rewrite <- (flat_map_norm_pair p X (combinations2 l')).
  apply Permutation_flat_map, combinations2_perm, HP.
Qed.

Lemma Rsum_perm (l l' : list R) : Permutation l l' -> Rsum l = Rsum l'.
Proof.
  unfold Rsum. induction 1; simpl; lra.
Qed.

Lemma np_var_perm (l l' : list R) : Permutation l l' -> np_var l = np_var l'.
Proof.
  intros HP. destruct l as [|x l], l' as [|x' l'].
  - reflexivity.
  - apply Permutation_nil in HP. discriminate.
  - apply Permutation_sym, Permutation_nil in HP. discriminate.
  - unfold np_var, np_mean.
    rewrite (Permutation_length HP), (Rsum_perm _ _ HP).
    f_equal. f_equal. apply Rsum_perm, Permutation_map, HP.
Qed.

(** The scorer does not depend on the order of the neighbour indices. *)
Lemma _calculate_wocs_perm (p : Point) (X : Matrix) (l l' : list nat) :
  rows_of_dim (length p) X -> in_range (length X) l -> Permutation l l' ->
  _calculate_wocs p X l = _calculate_wocs p X l'.
Proof.
  intros HX Hr HP.
  assert (Hr' : in_range (length X) l').
  { unfold in_range in *. rewrite Forall_forall in *. intros i Hi.
    apply Hr. apply Permutation_sym in HP.
    apply (Permutation_in _ HP Hi). }
  rewrite !_calculate_wocs_value by assumption.
  f_equal. apply np_var_perm, retained_values_perm, HP.
Qed.

(** ** Neighbour sets *)

(** The neighbour set [_fit_default] builds for training point [i]:
    [range(n)] without [i]. *)
Definition neighbors_default (n i : nat) : list nat :=
  seq 0 i ++ seq (S i) (n - S i).

(** The neighbour set [_fit_fast] reads from [ind_arr] for training point
    [i]. *)
Definition neighbors_fast (X : Matrix) (k : Z) (i : nat) : list nat :=
  firstn (Z.to_nat k)
    (sort_by_dist X (nth i X [])
       (List.remove Nat.eq_dec i (seq 0 (length X)))).

Lemma list_remove_seq (n i : nat) :
  (i < n)%nat ->
  forall s, list_remove (s + i) (seq s n) =
            Ok (seq s i ++ seq (S (s + i)) (n - S i)).
Proof.
  revert i. induction n as [|n IH]; intros i Hi s; [lia|].
  destruct i as [|i].
  - cbn [seq list_remove]. rewrite Nat.add_0_r, Nat.eqb_refl.
    cbn [app]. do 2 f_equal. lia.
  - cbn [seq list_remove].
    replace (Nat.eqb s (s + S i)) with false
      by (symmetry; apply Nat.eqb_neq; lia).
    replace (s + S i)%nat with (S s + i)%nat by lia.
    rewrite IH by lia. cbn [rbind app].
    replace (S n - S (S i))%nat with (n - S i)%nat by lia. reflexivity.
Qed.

Lemma list_remove_range (n i : nat) :
  (i < n)%nat -> list_remove i (seq 0 n) = Ok (neighbors_default n i).
Proof. intros H. exact (list_remove_seq n i H 0%nat). Qed.

Lemma neighbors_default_in (n i j : nat) :
  (i < n)%nat ->
  In j (neighbors_default n i) <-> (j < n)%nat /\ j <> i.
Proof.
  intros Hi. unfold neighbors_default. rewrite in_app_iff, !in_seq. lia.
Qed.

Lemma neighbors_default_in_range (n i : nat) :
  (i < n)%nat -> in_range n (neighbors_default n i).
Proof.
  intros Hi. apply Forall_forall. intros j Hj.
  apply neighbors_default_in in Hj; tauto.
Qed.

Lemma insert_by_dist_perm (T : Matrix) (q : Point) (i : nat) (l : list nat) :
  Permutation (insert_by_dist T q i l) (i :: l).
Proof.
  induction l as [|j l IH]; simpl; [apply Permutation_refl|].
  destruct (Rle_dec (dist_to T q i) (dist_to T q j)).
  - apply Permutation_refl.
  - eapply Permutation_trans; [apply perm_skip, IH|apply perm_swap].
Qed.

Lemma sort_by_dist_perm (T : Matrix) (q : Point) (l : list nat) :
  Permutation (sort_by_dist T q l) l.
Proof.
  induction l as [|i l IH]; simpl; [constructor|].
  eapply Permutation_trans; [apply insert_by_dist_perm|].
  apply perm_skip, IH.
Qed.

Lemma firstn_incl {A : Type} (n : nat) :
  forall (l : list A) (x : A), In x (firstn n l) -> In x l.
Proof.
  induction n as [|n IH]; intros [|y l] x H; simpl in *; try contradiction.
  destruct H as [H|H]; [left; assumption|right; apply IH; assumption].
Qed.

Lemma neighbors_fast_in (X : Matrix) (k : Z) (i j : nat) :
  In j (neighbors_fast X k i) -> (j < length X)%nat /\ j <> i.
Proof.
  unfold neighbors_fast. intros H.
  apply firstn_incl in H.
  apply (Permutation_in _ (sort_by_dist_perm _ _ _)) in H.
  apply in_remove in H. destruct H as [H Hne].
  apply in_seq in H. split; [lia|assumption].
Qed.

Lemma neighbors_fast_in_range (X : Matrix) (k : Z) (i : nat) :
  in_range (length X) (neighbors_fast X k i).
Proof.
  apply Forall_forall. intros j Hj. apply neighbors_fast_in in Hj. tauto.
Qed.

Lemma remove_seq_default (n i : nat) :
  List.remove Nat.eq_dec i (seq 0 n) = neighbors_default n i \/ (n <= i)%nat.
Proof.
  destruct (Nat.lt_ge_cases i n) as [Hi|Hi]; [left|right; assumption].
  unfold neighbors_default.
  replace n with (i + (1 + (n - S i)))%nat at 1 by lia.
  rewrite !seq_app. cbn [seq]. rewrite !remove_app.
  rewrite notin_remove by (rewrite in_seq; lia).
  cbn [List.remove app]. destruct (Nat.eq_dec i (0 + i)) as [_|E]; [|lia].
  rewrite notin_remove by (rewrite in_seq; lia).
  cbn [app]. do 2 f_equal. lia.
Qed.

Lemma remove_seq_length (n i : nat) :
  (i < n)%nat -> length (List.remove Nat.eq_dec i (seq 0 n)) = (n - 1)%nat.
Proof.
  intros Hi. destruct (remove_seq_default n i) as [E|E]; [|lia].
  rewrite E. unfold neighbors_default. rewrite length_app, !length_seq. lia.
Qed.

Lemma neighbors_fast_length (X : Matrix) (k : Z) (i : nat) :
  (i < length X)%nat -> (0 <= k < Z.of_nat (length X))%Z ->
  length (neighbors_fast X k i) = Z.to_nat k.
Proof.
  intros Hi Hk. unfold neighbors_fast. rewrite length_firstn.
  rewrite (Permutation_length (sort_by_dist_perm _ _ _)).
  rewrite remove_seq_length by assumption. lia.
Qed.

(** With [k = n - 1] the restricted neighbour set is the exhaustive one in
    another order. *)
Lemma neighbors_fast_full (X : Matrix) (i : nat) :
  (i < length X)%nat ->
  Permutation (neighbors_default (length X) i)
              (neighbors_fast X (Z.of_nat (length X) - 1) i).
Proof.
  intros Hi. unfold neighbors_fast.
  rewrite firstn_all2.
  - destruct (remove_seq_default (length X) i) as [E|E]; [|lia].
    rewrite E. apply Permutation_sym, sort_by_dist_perm.
  - rewrite (Permutation_length (sort_by_dist_perm _ _ _)).
    rewrite remove_seq_length by assumption. lia.
Qed.

(** ** Running [fit] *)

(** The raw score the scorer returns for the point [q] against the data [T]
    with the neighbour indices [nb]. *)
Definition score_of (T : Matrix) (q : Point) (nb : list nat) : npfloat :=
  np_var (flat_map (pair_values q T) (combinations2 nb)).

(** The raw score of training point [i] with the neighbour sets [nb]. *)
Definition raw_of (X : Matrix) (nb : nat -> list nat) (i : nat) : npfloat :=
  score_of X (nth i X []) (nb i).

(** The neighbour set [_decision_function_fast] reads from the tree query for
    the new point [q]. *)
Definition neighbors_query (T : Matrix) (k : Z) (q : Point) : list nat :=
  firstn (Z.to_nat k) (sort_by_dist T q (seq 0 (length T))).

(** The [(n, 1)] score array when the points before [a] have been scored. *)
Definition partial (raw : nat -> npfloat) (n a : nat) : list (list npfloat) :=
  map (fun i => [if Nat.ltb i a then raw i else Fin 0]) (seq 0 n).

Definition dim (X : Matrix) : nat := length (nth 0 X []).

Lemma check_array_ok (X X' : Matrix) :
  check_array X = Ok X' ->
  X' = X /\ (0 < length X)%nat /\ (0 < dim X)%nat /\ rows_of_dim (dim X) X.
Proof.
  unfold check_array, dim. destruct X as [|r X]; [discriminate|].
  destruct (Nat.eqb (length r) 0) eqn:E0; [discriminate|].
  match goal with
  | |- context [forallb ?f ?l] => destruct (forallb f l) eqn:Ef
  end; [|discriminate].
  intros H. inversion H; subst. apply Nat.eqb_neq in E0.
  repeat split; simpl; try lia.
  rewrite forallb_forall in Ef. apply Forall_forall. intros r' Hr'.
  apply Nat.eqb_eq, Ef, Hr'.
Qed.

Lemma check_array_accepts (X : Matrix) :
  (0 < length X)%nat -> (0 < dim X)%nat -> rows_of_dim (dim X) X ->
  check_array X = Ok X.
Proof.
  unfold check_array, dim, rows_of_dim. destruct X as [|r X]; simpl; [lia|].
  intros _ Hd HX. destruct (Nat.eqb (length r) 0) eqn:E0;
    [apply Nat.eqb_eq in E0; lia|].
  rewrite Nat.eqb_refl. simpl.
  inversion HX as [|? ? _ HX']; subst.
  match goal with
  | |- context [forallb ?f X] => replace (forallb f X) with true
  end; [reflexivity|].
  symmetry. apply forallb_forall. intros r' Hr'. apply Nat.eqb_eq.
  rewrite Forall_forall in HX'. apply HX', Hr'.
Qed.

Lemma raw_of_value (X : Matrix) (nb : nat -> list nat) (i : nat) :
  rows_of_dim (dim X) X -> (i < length X)%nat -> in_range (length X) (nb i) ->
  _calculate_wocs (nth i X []) X (nb i) = Ok (raw_of X nb i).
Proof.
  intros HX Hi Hnb. apply _calculate_wocs_value; [|assumption].
  rewrite (rows_of_dim_nth (dim X) X i HX Hi). exact HX.
Qed.

Lemma neighbors_query_in_range (T : Matrix) (k : Z) (q : Point) :
  in_range (length T) (neighbors_query T k q).
Proof.
  apply Forall_forall. intros j Hj. unfold neighbors_query in Hj.
  apply firstn_incl in Hj.
  apply (Permutation_in _ (sort_by_dist_perm _ _ _)) in Hj.
  apply in_seq in Hj. lia.
Qed.

Lemma seq_in_range (n : nat) : in_range n (seq 0 n).
Proof. apply Forall_forall. intros j Hj. apply in_seq in Hj. lia. Qed.

Lemma map_nth_seq {A B : Type} (g : A -> B) (d : A) (l : list A) :
  map (fun i => g (nth i l d)) (seq 0 (length l)) = map g l.
Proof.
  induction l as [|x l IH]; [reflexivity|].
  cbn [length seq map nth]. f_equal.
  rewrite <- seq_shift, map_map. exact IH.
Qed.

Lemma list_set_map_seq {A : Type} (f : nat -> A) (v : A) (n : nat) :
  forall s i, (i < n)%nat ->
  list_set i v (map f (seq s n)) =
  map (fun j => if Nat.eqb j (s + i) then v else f j) (seq s n).
Proof.
  induction n as [|n IH]; intros s i Hi; [lia|].
  destruct i as [|i]; cbn [seq map list_set].
  - rewrite Nat.add_0_r, Nat.eqb_refl. f_equal.
    apply map_ext_in. intros j Hj. apply in_seq in Hj.
    replace (Nat.eqb j s) with false by (symmetry; apply Nat.eqb_neq; lia).
    reflexivity.
  - replace (Nat.eqb s (s + S i)) with false
      by (symmetry; apply Nat.eqb_neq; lia).
    f_equal. rewrite IH by lia.
    apply map_ext. intros j. replace (S s + i)%nat with (s + S i)%nat by lia.
    reflexivity.
Qed.

Lemma setitem2_partial (raw : nat -> npfloat) (n i : nat) :
  (i < n)%nat ->
  setitem2 (Arr2 (partial raw n i)) i 0 (raw i) =
  Ok (Arr2 (partial raw n (S i))).
Proof.
  intros Hi. unfold setitem2, partial.
  rewrite nth_error_map, nth_error_seq.
  replace (Nat.ltb i n) with true by (symmetry; apply Nat.ltb_lt; lia).
  cbn [option_map length]. change (Nat.ltb 0 1) with true. cbn [list_set].
  rewrite list_set_map_seq by assumption. do 2 f_equal.
  apply map_ext. intros j. cbn [Nat.add].
  destruct (Nat.eqb j i) eqn:E.
  - apply Nat.eqb_eq in E. subst.
    replace (Nat.ltb i (S i)) with true
      by (symmetry; apply Nat.ltb_lt; lia). reflexivity.
  - apply Nat.eqb_neq in E.
    destruct (Nat.ltb j i) eqn:E1.
    + apply Nat.ltb_lt in E1.
      replace (Nat.ltb j (S i)) with true
        by (symmetry; apply Nat.ltb_lt; lia). reflexivity.
    + apply Nat.ltb_ge in E1.
      replace (Nat.ltb j (S i)) with false
        by (symmetry; apply Nat.ltb_ge; lia). reflexivity.
Qed.

Lemma partial_zero_eq (raw : nat -> npfloat) (n : nat) :
  np_zeros2 n 1 = Arr2 (partial raw n 0).
Proof.
  unfold np_zeros2, partial. f_equal. cbn [repeat Nat.ltb Nat.leb].
  rewrite map_const, length_seq. reflexivity.
Qed.

Lemma setrow2_partial (raw : nat -> npfloat) (n i : nat) :
  (i < n)%nat ->
  setrow2 (Arr2 (partial raw n i)) i (raw i) =
  Ok (Arr2 (partial raw n (S i))).
Proof.
  intros Hi. rewrite <- (setitem2_partial raw n i Hi).
  unfold setrow2, setitem2, partial.
  rewrite nth_error_map, nth_error_seq.
  replace (Nat.ltb i n) with true by (symmetry; apply Nat.ltb_lt; lia).
  reflexivity.
Qed.

Lemma pred_loop_run (body : nat -> ndarray -> result ndarray)
    (raw : nat -> npfloat) (n : nat) :
  (forall i ps, (i < n)%nat -> body i ps = setrow2 ps i (raw i)) ->
  pred_loop body (seq 0 n) (np_zeros2 n 1) = Ok (Arr2 (partial raw n n)).
Proof.
  intros Hb. rewrite (partial_zero_eq raw n).
  assert (H : forall c a, (a + c <= n)%nat ->
              pred_loop body (seq a c) (Arr2 (partial raw n a)) =
              Ok (Arr2 (partial raw n (a + c)))).
  { induction c as [|c IH]; intros a Ha.
    - rewrite Nat.add_0_r. reflexivity.
    - cbn [seq pred_loop]. rewrite Hb by lia.
      rewrite setrow2_partial by lia. cbn [rbind]. rewrite IH by lia.
      replace (S a + c)%nat with (a + S c)%nat by lia. reflexivity. }
  apply (H n 0%nat). lia.
Qed.

Lemma partial_full (raw : nat -> npfloat) (n : nat) :
  ravel (Arr2 (partial raw n n)) = map raw (seq 0 n).
Proof.
  unfold ravel, partial.
  rewrite (map_ext_in _ (fun i => [raw i])).
  - induction (seq 0 n) as [|i l IH]; simpl; [reflexivity|].
    rewrite IH. reflexivity.
  - intros i Hi. apply in_seq in Hi.
    replace (Nat.ltb i n) with true by (symmetry; apply Nat.ltb_lt; lia).
    reflexivity.
Qed.

Lemma check_parameter_spec_accepts (k n : Z) :
  (1 <= k < n)%Z -> check_parameter_spec k 1 n = Ok tt.
Proof.
  intros Hk. unfold check_parameter_spec.
  replace ((1 <=? k) && (k <? n))%Z with true
    by (symmetry; apply andb_true_iff; split;
        [apply Z.leb_le|apply Z.ltb_lt]; lia).
  reflexivity.
Qed.

Lemma check_parameter_spec_rejects (k n : Z) :
  ~ (1 <= k < n)%Z -> check_parameter_spec k 1 n = Raise ValueError.
Proof.
  intros Hk. unfold check_parameter_spec.
  destruct ((1 <=? k) && (k <? n))%Z eqn:E; [|reflexivity].
  apply andb_true_iff in E. destruct E as [E1 E2].
  apply Z.leb_le in E1. apply Z.ltb_lt in E2. lia.
Qed.

(** One step of symbolic execution of a method body: the monad is unfolded
    and attribute reads are resolved; calls are left for rewriting. *)
Ltac py_run :=
  unfold mbind, getattr, read, lift, setattr, attr,
    set_base, set_X_train_, set_n_train_, set_decision_scores_, set_tree_;
  cbn -[partial raw_of neighbors_default neighbors_fast setitem2 setrow2
        getrow getinds list_remove _calculate_wocs kneighbors tree_query
        check_parameter_spec check_array np_zeros2 flip ravel for_each
        _fit_default _fit_fast _fit_default_with _fit_fast_with
        Z.of_nat Z.to_nat].

Section DetectorFacts.

Variable BaseState : Type.
Variable check_parameter : Z -> Z -> Z -> result unit.
Variable _set_n_classes : BaseState -> BaseState.
Variable _process_decision_scores : list npfloat -> BaseState -> BaseState.
Variable has_threshold_labels : BaseState -> bool.

Local Abbreviation ABOD := (ABOD BaseState).
Local Abbreviation M := (M BaseState).

Lemma for_each_seq (body : nat -> M unit) (st : nat -> ABOD) :
  forall m a,
    (forall i, (a <= i < a + m)%nat -> body i (st i) = (st (S i), Ok tt)) ->
    for_each (seq a m) body (st a) = (st (a + m)%nat, Ok tt).
Proof.
  induction m as [|m IH]; intros a H.
  - rewrite Nat.add_0_r. reflexivity.
  - cbn [seq for_each]. unfold mbind at 1. rewrite H by lia.
    rewrite IH.
    + replace (S a + m)%nat with (a + S m)%nat by lia. reflexivity.
    + intros i Hi. apply H. lia.
Qed.

(** The state of the object while the scoring loop runs. *)
Definition fitting (b : BaseState) (m : string) (k : Z) (X : Matrix)
    (rows : list (list npfloat)) (t : option KDTree) : ABOD :=
  mkABOD b m k (Some X) (Some (length X)) (Some (Arr2 rows)) t.

Lemma _fit_default_run b m k X t :
  rows_of_dim (dim X) X ->
  _fit_default (fitting b m k X (partial (raw_of X (neighbors_default (length X))) (length X) 0) t)
  = (fitting b m k X (partial (raw_of X (neighbors_default (length X))) (length X) (length X)) t,
     Ok tt).
Proof.
  intros HX. unfold _fit_default, _fit_default_with.
  unfold mbind at 1, getattr, fitting.
  cbn [n_train_ attr].
  apply (for_each_seq _
           (fun i => fitting b m k X
              (partial (raw_of X (neighbors_default (length X))) (length X) i) t)).
  intros i Hi. unfold fitting. py_run.
  rewrite getrow_in_range by lia. rewrite list_remove_range by lia.
  rewrite raw_of_value;
    [|assumption|lia|apply neighbors_default_in_range; lia].
  rewrite setitem2_partial by lia. reflexivity.
Qed.

Lemma kneighbors_value (X : Matrix) (k : Z) :
  (1 <= k < Z.of_nat (length X))%Z ->
  kneighbors X k = Ok (map (neighbors_fast X k) (seq 0 (length X))).
Proof.
  intros Hk. unfold kneighbors.
  replace ((1 <=? k) && (k <? Z.of_nat (length X)))%Z with true
    by (symmetry; apply andb_true_iff; split;
        [apply Z.leb_le|apply Z.ltb_lt]; lia).
  reflexivity.
Qed.

Lemma getinds_map_seq (f : nat -> list nat) (n i : nat) :
  (i < n)%nat -> getinds (map f (seq 0 n)) i = Ok (f i).
Proof.
  intros Hi. unfold getinds. rewrite nth_error_map, nth_error_seq.
  replace (Nat.ltb i n) with true by (symmetry; apply Nat.ltb_lt; lia).
  reflexivity.
Qed.

Lemma _fit_fast_run b m k X t :
  rows_of_dim (dim X) X ->
  check_parameter k 1 (Z.of_nat (length X)) = Ok tt ->
  (1 <= k < Z.of_nat (length X))%Z ->
  _fit_fast check_parameter (fitting b m k X (partial (raw_of X (neighbors_fast X k)) (length X) 0) t)
  = (fitting b m k X (partial (raw_of X (neighbors_fast X k)) (length X) (length X))
       (Some (mkKDTree X)),
     Ok tt).
Proof.
  intros HX Hc Hk. unfold _fit_fast, _fit_fast_with, fitting. py_run.
  rewrite Hc. py_run.
  rewrite kneighbors_value by assumption. py_run.
  apply (for_each_seq _
           (fun i => fitting b m k X
              (partial (raw_of X (neighbors_fast X k)) (length X) i)
              (Some (mkKDTree X)))).
  intros i Hi. unfold fitting. py_run.
  rewrite getrow_in_range by lia. rewrite getinds_map_seq by lia.
  rewrite raw_of_value;
    [|assumption|lia|apply neighbors_fast_in_range].
  rewrite setitem2_partial by lia. reflexivity.
Qed.

Lemma _fit_fast_rejects b m k X rows t e :
  check_parameter k 1 (Z.of_nat (length X)) = Raise e ->
  _fit_fast check_parameter (fitting b m k X rows t)
  = (fitting b m k X rows t, Raise e).
Proof.
  intros Hc. unfold _fit_fast, _fit_fast_with, fitting. py_run.
  rewrite Hc. reflexivity.
Qed.

(** The state [fit] leaves when it returns. *)
Definition fitted (b : BaseState) (m : string) (k : Z) (X : Matrix)
    (raws : list npfloat) (t : option KDTree) : ABOD :=
  mkABOD (_process_decision_scores (flip raws) (_set_n_classes b)) m k
    (Some X) (Some (length X)) (Some (Arr1 (flip raws))) t.

(** The state [fit] leaves when the method dispatch or the range check
    raises. *)
Definition half_fitted (b : BaseState) (m : string) (k : Z) (X : Matrix)
    (t : option KDTree) : ABOD :=
  mkABOD (_set_n_classes b) m k (Some X) (Some (length X))
    (Some (np_zeros2 (length X) 1)) t.

Local Abbreviation fit' :=
  (fit check_parameter _set_n_classes _process_decision_scores).

Lemma fit_default_run (s : ABOD) (X : Matrix) :
  check_array X = Ok X -> method s = "default"%string ->
  fit' X s =
  (fitted (base s) (method s) (n_neighbors s) X
     (map (raw_of X (neighbors_default (length X))) (seq 0 (length X)))
     (tree_ s),
   Ok tt).
Proof.
  intros HX Hm. destruct (check_array_ok X X HX) as (_ & _ & _ & Hd).
  destruct s as [b m k Xo no dso t]. cbn [method] in Hm. subst m.
  unfold fit, fit_with. py_run. rewrite HX. py_run.
  rewrite (partial_zero_eq (raw_of X (neighbors_default (length X)))).
  pose proof (_fit_default_run (_set_n_classes b) "default" k X t Hd) as H.
  unfold fitting, _fit_default, _fit_fast in H. rewrite H. py_run.
  rewrite partial_full. reflexivity.
Qed.

Lemma fit_fast_run (s : ABOD) (X : Matrix) :
  check_array X = Ok X -> method s = "fast"%string ->
  check_parameter (n_neighbors s) 1 (Z.of_nat (length X)) = Ok tt ->
  (1 <= n_neighbors s < Z.of_nat (length X))%Z ->
  fit' X s =
  (fitted (base s) (method s) (n_neighbors s) X
     (map (raw_of X (neighbors_fast X (n_neighbors s))) (seq 0 (length X)))
     (Some (mkKDTree X)),
   Ok tt).
Proof.
  intros HX Hm Hc Hk. destruct (check_array_ok X X HX) as (_ & _ & _ & Hd).
  destruct s as [b m k Xo no dso t]. cbn [method n_neighbors] in *. subst m.
  unfold fit, fit_with. py_run. rewrite HX. py_run.
  rewrite (partial_zero_eq (raw_of X (neighbors_fast X k))).
  pose proof (_fit_fast_run (_set_n_classes b) "fast" k X t Hd Hc Hk) as H.
  unfold fitting, _fit_default, _fit_fast in H. rewrite H. py_run.
  rewrite partial_full. reflexivity.
Qed.

Lemma fit_fast_rejects (s : ABOD) (X : Matrix) (e : exn) :
  check_array X = Ok X -> method s = "fast"%string ->
  check_parameter (n_neighbors s) 1 (Z.of_nat (length X)) = Raise e ->
  fit' X s =
  (half_fitted (base s) (method s) (n_neighbors s) X (tree_ s),
   Raise e).
Proof.
  intros HX Hm Hk.
  destruct s as [b m k Xo no dso t]. cbn [method n_neighbors] in *. subst m.
  unfold fit, fit_with. py_run. rewrite HX. py_run.
  pose proof (_fit_fast_rejects (_set_n_classes b) "fast" k X
                (repeat (repeat (Fin 0) 1) (length X)) t e Hk) as H.
  unfold fitting, _fit_fast in H. unfold np_zeros2. rewrite H. reflexivity.
Qed.

Lemma fit_bad_method (s : ABOD) (X : Matrix) :
  check_array X = Ok X ->
  method s <> "fast"%string -> method s <> "default"%string ->
  fit' X s =
  (half_fitted (base s) (method s) (n_neighbors s) X (tree_ s),
   Raise ValueError).
Proof.
  intros HX Hf Hd.
  destruct s as [b m k Xo no dso t]. cbn [method n_neighbors] in *.
  unfold fit, fit_with. py_run. rewrite HX. py_run.
  apply String.eqb_neq in Hf, Hd. rewrite Hf, Hd. reflexivity.
Qed.

Lemma fit_bad_array (s : ABOD) (X : Matrix) (e : exn) :
  check_array X = Raise e -> fit' X s = (s, Raise e).
Proof.
  intros HX. unfold fit, fit_with. py_run. rewrite HX. reflexivity.
Qed.

Lemma kneighbors_rejects (X : Matrix) (k : Z) :
  ~ (1 <= k < Z.of_nat (length X))%Z -> kneighbors X k = Raise ValueError.
Proof.
  intros Hk. unfold kneighbors.
  destruct ((1 <=? k) && (k <? Z.of_nat (length X)))%Z eqn:E; [|reflexivity].
  apply andb_true_iff in E. destruct E as [E1 E2].
  apply Z.leb_le in E1. apply Z.ltb_lt in E2. lia.
Qed.

(** When the range check lets a [k] through that the neighbour query does
    not accept, the query raises, after the tree has been stored. *)
Lemma fit_fast_query_rejects (s : ABOD) (X : Matrix) :
  check_array X = Ok X -> method s = "fast"%string ->
  check_parameter (n_neighbors s) 1 (Z.of_nat (length X)) = Ok tt ->
  ~ (1 <= n_neighbors s < Z.of_nat (length X))%Z ->
  fit' X s =
  (half_fitted (base s) (method s) (n_neighbors s) X (Some (mkKDTree X)),
   Raise ValueError).
Proof.
  intros HX Hm Hc Hk.
  destruct s as [b m k Xo no dso t]. cbn [method n_neighbors] in *. subst m.
  unfold fit, fit_with. py_run. rewrite HX. py_run.
  unfold _fit_fast_with. py_run. rewrite Hc. py_run.
  rewrite kneighbors_rejects by assumption. reflexivity.
Qed.

(** *** Running [decision_function] *)

Local Abbreviation decision_function' :=
  (decision_function has_threshold_labels).

Lemma _decision_function_default_run (self : ABOD) (T Q : Matrix) :
  X_train_ self = Some T -> n_train_ self = Some (length T) ->
  rows_of_dim (dim T) T -> rows_of_dim (dim T) Q ->
  _decision_function_default self Q =
  Ok (map (fun q => score_of T q (seq 0 (length T))) Q).
Proof.
  intros HT Hn HdT HdQ. unfold _decision_function_default.
  rewrite (pred_loop_run _
             (fun i => score_of T (nth i Q []) (seq 0 (length T)))).
  - cbn [rbind]. rewrite partial_full.
    rewrite (map_nth_seq (fun q => score_of T q (seq 0 (length T)))).
    reflexivity.
  - intros i ps Hi. rewrite getrow_in_range by assumption.
    rewrite HT, Hn. cbn [rbind attr].
    rewrite _calculate_wocs_value; [reflexivity| |apply seq_in_range].
    rewrite (rows_of_dim_nth (dim T) Q i HdQ Hi). exact HdT.
Qed.

Lemma tree_query_value (T Q : Matrix) (k : Z) :
  (1 <= k <= Z.of_nat (length T))%Z -> rows_of_dim (dim T) Q ->
  tree_query (mkKDTree T) Q k = Ok (map (neighbors_query T k) Q).
Proof.
  intros Hk HQ. unfold tree_query. cbn [tree_data].
  replace ((1 <=? k) && (k <=? Z.of_nat (length T)))%Z with true
    by (symmetry; apply andb_true_iff; split; apply Z.leb_le; lia).
  cbn [andb].
  match goal with
  | |- context [forallb ?f Q] => replace (forallb f Q) with true
  end; [reflexivity|].
  symmetry. apply forallb_forall. intros q Hq. apply Nat.eqb_eq.
  unfold rows_of_dim in HQ. rewrite Forall_forall in HQ. apply HQ, Hq.
Qed.

Lemma getinds_map (f : Point -> list nat) (Q : Matrix) (i : nat) :
  (i < length Q)%nat -> getinds (map f Q) i = Ok (f (nth i Q [])).
Proof.
  intros Hi. unfold getinds. rewrite nth_error_map.
  rewrite (nth_error_nth' Q [] Hi). reflexivity.
Qed.

Lemma _decision_function_fast_run (self : ABOD) (T Q : Matrix) :
  X_train_ self = Some T -> tree_ self = Some (mkKDTree T) ->
  (1 <= n_neighbors self <= Z.of_nat (length T))%Z ->
  rows_of_dim (dim T) T -> rows_of_dim (dim T) Q ->
  _decision_function_fast self Q =
  Ok (map (fun q => score_of T q (neighbors_query T (n_neighbors self) q)) Q).
Proof.
  intros HT Ht Hk HdT HdQ. unfold _decision_function_fast.
  rewrite Ht. cbn [is_some check_is_fitted rbind attr].
  rewrite tree_query_value by assumption. cbn [rbind].
  rewrite (pred_loop_run _
             (fun i => score_of T (nth i Q [])
                         (neighbors_query T (n_neighbors self) (nth i Q [])))).
  - cbn [rbind]. rewrite partial_full.
    rewrite (map_nth_seq
               (fun q => score_of T q (neighbors_query T (n_neighbors self) q))).
    reflexivity.
  - intros i ps Hi. rewrite getrow_in_range by assumption.
    rewrite getinds_map by assumption.
    rewrite HT. cbn [rbind attr].
    rewrite _calculate_wocs_value;
      [reflexivity| |apply neighbors_query_in_range].
    rewrite (rows_of_dim_nth (dim T) Q i HdQ Hi). exact HdT.
Qed.

End DetectorFacts.

(** * The claims about the geometric primitive and the scorer *)

(** Distinct coordinates make distinct one-dimensional points. *)
Lemma point1_neq (x y : R) : x <> y -> [x] <> [y].
Proof. intros H E. apply H. inversion E. reflexivity. Qed.

Lemma pair_values_retained (p : Point) (X : Matrix) (i j : nat) :
  nth i X [] <> p -> nth j X [] <> p ->
  pair_values p X (i, j) = [wcos_of p (nth i X []) (nth j X [])].
Proof.
  intros Hi Hj. unfold pair_values. cbn [fst snd].
  apply array_equal_false in Hi, Hj. rewrite Hi, Hj. reflexivity.
Qed.

Lemma pair_values_skipped (p : Point) (X : Matrix) (i j : nat) :
  nth i X [] = p \/ nth j X [] = p -> pair_values p X (i, j) = [].
Proof.
  intros H. unfold pair_values. cbn [fst snd].
  destruct H as [H|H]; apply array_equal_true in H; rewrite H;
    [reflexivity|rewrite orb_true_r; reflexivity].
Qed.

(** The division the skip protects: at a reference point that coincides with
    the query point the primitive raises. *)
Lemma _wcos_degenerate (p b : Point) :
  length b = length p -> _wcos p p b = Raise ZeroDivisionError.
Proof.
  intros Hb. unfold _wcos.
  rewrite (np_sub_same_length p p eq_refl), (np_sub_same_length b p Hb).
  cbn [rbind]. unfold np_dot.
  rewrite !vsub_length by (assumption || reflexivity). rewrite Nat.eqb_refl.
  cbn [rbind]. rewrite norm_sq_zero_self, njit_div_zero. reflexivity.
Qed.

(** C1. For points [p], [a], [b] of one dimension [d] with [a] and [b]
    distinct from [p], [_wcos p a b] returns the inner product of the
    displacements [a - p] and [b - p] divided by the product of their squared
    Euclidean norms, a squared norm being the sum of the squared
    coordinates. *)
Theorem wcos_divides_by_squared_norms (d : nat) (p a b : Point) :
  length p = d -> length a = d -> length b = d -> a <> p -> b <> p ->
  _wcos p a b =
  Ok (dot (vsub a p) (vsub b p)
      / (linalg_norm (vsub a p) ^ 2 * linalg_norm (vsub b p) ^ 2))
  /\ linalg_norm (vsub a p) ^ 2 = dot (vsub a p) (vsub a p)
  /\ linalg_norm (vsub b p) ^ 2 = dot (vsub b p) (vsub b p).
Proof.
  intros Hp Ha Hb Hap Hbp.
  assert (Hna : linalg_norm (vsub a p) ^ 2 <> 0)
    by (apply norm_sq_nonzero; congruence).
  assert (Hnb : linalg_norm (vsub b p) ^ 2 <> 0)
    by (apply norm_sq_nonzero; congruence).
  split; [|split; apply linalg_norm_sq].
  rewrite _wcos_value by congruence. f_equal.
  unfold Rdiv. rewrite Rinv_mult. ring.
Qed.

Lemma wcos_divides_by_squared_norms_witness :
  [1] <> [0] /\ [2] <> [0] /\
  _wcos [0] [1] [2] =
  Ok (dot (vsub [1] [0]) (vsub [2] [0])
      / (linalg_norm (vsub [1] [0]) ^ 2 * linalg_norm (vsub [2] [0]) ^ 2)).
Proof.
  assert (H1 : [1] <> [0]) by (apply point1_neq; lra).
  assert (H2 : [2] <> [0]) by (apply point1_neq; lra).
  split; [exact H1|split; [exact H2|]].
  exact (proj1 (wcos_divides_by_squared_norms 1 [0] [1] [2]
                  eq_refl eq_refl eq_refl H1 H2)).
Defined.

(** The weighting is by squared norms: two reference points at distance 2 in
    the same direction give 1/4, where the plain cosine is 1. *)
Lemma _wcos_is_not_the_plain_cosine :
  _wcos [0] [2] [2] = Ok (/ 4)
  /\ dot (vsub [2] [0]) (vsub [2] [0])
     / (linalg_norm (vsub [2] [0]) * linalg_norm (vsub [2] [0])) = 1.
Proof.
  assert (H2 : [2] <> [0]) by (apply point1_neq; lra).
  split.
  - rewrite _wcos_value by (reflexivity || assumption).
    rewrite !linalg_norm_sq. unfold dot, vsub. simpl. f_equal. field.
  - replace (linalg_norm (vsub [2] [0]) * linalg_norm (vsub [2] [0]))
      with (linalg_norm (vsub [2] [0]) ^ 2) by ring.
    rewrite linalg_norm_sq. unfold dot, vsub. simpl. field.
Qed.

(** C9. For non-degenerate [p], [a], [b] of one dimension the weighted cosine
    is defined and does not change when [a] and [b] are exchanged. *)
Theorem wcos_symmetric (d : nat) (p a b : Point) :
  length p = d -> length a = d -> length b = d -> a <> p -> b <> p ->
  _wcos p a b = _wcos p b a /\ exists w, _wcos p a b = Ok w.
Proof.
  intros Hp Ha Hb Hap Hbp. split; [apply _wcos_sym|].
  eexists. apply _wcos_value; congruence.
Qed.

Lemma wcos_symmetric_witness :
  [1] <> [0] /\ [2] <> [0] /\ _wcos [0] [1] [2] = _wcos [0] [2] [1].
Proof.
  assert (H1 : [1] <> [0]) by (apply point1_neq; lra).
  assert (H2 : [2] <> [0]) by (apply point1_neq; lra).
  split; [exact H1|split; [exact H2|]].
  exact (proj1 (wcos_symmetric 1 [0] [1] [2] eq_refl eq_refl eq_refl H1 H2)).
Defined.

(** C10. A pair of rows that are equal to each other but not to the query
    point is not skipped: the test looks at the query point only, the
    primitive returns [1 / ||a - p||^2] for it, the loop appends that value,
    and the value is in the list the loop returns, whose variance is the
    scorer's result.  With these two neighbours alone the list is exactly
    that one value. *)
Theorem duplicate_pair_is_retained (p a : Point) (X : Matrix)
    (X_ind : list nat) (a_ind b_ind : nat) :
  rows_of_dim (length p) X -> in_range (length X) X_ind ->
  In (a_ind, b_ind) (combinations2 X_ind) ->
  getrow X a_ind = Ok a -> getrow X b_ind = Ok a -> a <> p ->
  array_equal a p || array_equal a p = false
  /\ _wcos p a a = Ok (1 / linalg_norm (vsub a p) ^ 2)
  /\ (forall rest wcos_list,
         wocs_loop p X ((a_ind, b_ind) :: rest) wcos_list =
         wocs_loop p X rest (wcos_list ++ [1 / linalg_norm (vsub a p) ^ 2]))
  /\ (exists wcos_list,
         wocs_loop p X (combinations2 X_ind) [] = Ok wcos_list
         /\ In (1 / linalg_norm (vsub a p) ^ 2) wcos_list
         /\ _calculate_wocs p X X_ind = Ok (np_var wcos_list))
  /\ wocs_loop p X (combinations2 [a_ind; b_ind]) []
     = Ok [1 / linalg_norm (vsub a p) ^ 2].
Proof.
  intros HX Hr Hin Ha Hb Hne.
  destruct (combinations2_in X_ind a_ind b_ind Hin) as [Hia Hib].
  assert (Hla : (a_ind < length X)%nat)
    by (unfold in_range in Hr; rewrite Forall_forall in Hr; apply Hr, Hia).
  assert (Hlb : (b_ind < length X)%nat)
    by (unfold in_range in Hr; rewrite Forall_forall in Hr; apply Hr, Hib).
  assert (Hna : nth a_ind X [] = a)
    by (rewrite (getrow_in_range X a_ind Hla) in Ha; congruence).
  assert (Hnb : nth b_ind X [] = a)
    by (rewrite (getrow_in_range X b_ind Hlb) in Hb; congruence).
  assert (Hlen : length a = length p)
    by (rewrite <- Hna; apply rows_of_dim_nth; assumption).
  assert (Hn : linalg_norm (vsub a p) ^ 2 <> 0)
    by (apply norm_sq_nonzero; assumption).
  assert (Hv : wcos_of p a a = 1 / linalg_norm (vsub a p) ^ 2).
  { unfold wcos_of. rewrite <- (linalg_norm_sq (vsub a p)).
    set (N := linalg_norm (vsub a p) ^ 2) in *. field. exact Hn. }
  assert (Hw : _wcos p a a = Ok (1 / linalg_norm (vsub a p) ^ 2)).
  { rewrite _wcos_value by assumption. f_equal. exact Hv. }
  assert (He : array_equal a p || array_equal a p = false).
  { apply array_equal_false in Hne. rewrite Hne. reflexivity. }
  assert (Hstep : forall rest wcos_list,
             wocs_loop p X ((a_ind, b_ind) :: rest) wcos_list =
             wocs_loop p X rest
               (wcos_list ++ [1 / linalg_norm (vsub a p) ^ 2])).
  { intros rest wcos_list. cbn [wocs_loop]. rewrite Ha, Hb. cbn [rbind].
    rewrite He, Hw. reflexivity. }
  split; [exact He|split; [exact Hw|split; [exact Hstep|split]]].
  - exists (flat_map (pair_values p X) (combinations2 X_ind)).
    split; [|split].
    + rewrite wocs_loop_values;
        [reflexivity|assumption|apply combinations2_in_range; assumption].
    + apply in_flat_map. exists (a_ind, b_ind). split; [exact Hin|].
      rewrite pair_values_retained by congruence.
      rewrite Hna, Hnb, Hv. left. reflexivity.
    + apply _calculate_wocs_value; assumption.
  - cbn [combinations2 map app]. rewrite Hstep. reflexivity.
Qed.

Lemma duplicate_pair_is_retained_witness :
  [2] <> [0] /\
  wocs_loop [0] [[2]; [2]] (combinations2 [0; 1]%nat) []
  = Ok [1 / linalg_norm (vsub [2] [0]) ^ 2].
Proof.
  assert (H2 : [2] <> [0]) by (apply point1_neq; lra).
  split; [exact H2|].
  refine (proj2 (proj2 (proj2 (proj2
            (duplicate_pair_is_retained [0] [2] [[2]; [2]] [0; 1]%nat 0 1
               _ _ _ eq_refl eq_refl H2))))).
  - repeat constructor.
  - repeat constructor.
  - left. reflexivity.
Defined.

(** What the skip does achieve.  In exact arithmetic, on a data matrix whose
    rows have the dimension of the query point, a pair with a member equal to
    the query point is skipped before [_wcos] is called; for every pair that
    is not skipped both displacements have a non-zero norm and [_wcos]
    returns a value.  Neither condition is checked by the code: see
    [one_feature_query_divides_by_zero] for a query point of another
    shape. *)
Theorem degenerate_pairs_are_skipped (p : Point) (X : Matrix)
    (X_ind : list nat) :
  rows_of_dim (length p) X -> in_range (length X) X_ind ->
  (forall a_ind b_ind a b rest wcos_list,
      getrow X a_ind = Ok a -> getrow X b_ind = Ok b -> a = p \/ b = p ->
      wocs_loop p X ((a_ind, b_ind) :: rest) wcos_list =
      wocs_loop p X rest wcos_list)
  /\ (forall a_ind b_ind a b,
         In (a_ind, b_ind) (combinations2 X_ind) ->
         getrow X a_ind = Ok a -> getrow X b_ind = Ok b ->
         array_equal a p || array_equal b p = false ->
         linalg_norm (vsub a p) ^ 2 <> 0
         /\ linalg_norm (vsub b p) ^ 2 <> 0
         /\ exists w, _wcos p a b = Ok w)
  /\ (exists v, _calculate_wocs p X X_ind = Ok v)
  /\ _calculate_wocs p X X_ind <> Raise ZeroDivisionError.
Proof.
  intros HX Hr. split; [|split; [|split]].
  - intros a_ind b_ind a b rest wcos_list Ha Hb Hdeg.
    cbn [wocs_loop]. rewrite Ha, Hb. cbn [rbind].
    replace (array_equal a p || array_equal b p) with true; [reflexivity|].
    symmetry. apply orb_true_iff.
    destruct Hdeg as [E|E]; [left|right]; apply array_equal_true; exact E.
  - intros a_ind b_ind a b Hin Ha Hb Hkeep.
    apply orb_false_iff in Hkeep. destruct Hkeep as [Ea Eb].
    apply array_equal_false in Ea, Eb.
    destruct (combinations2_in X_ind a_ind b_ind Hin) as [Hia Hib].
    unfold in_range in Hr. rewrite Forall_forall in Hr.
    pose proof (Hr a_ind Hia) as Hla. pose proof (Hr b_ind Hib) as Hlb.
    rewrite (getrow_in_range X a_ind Hla) in Ha.
    rewrite (getrow_in_range X b_ind Hlb) in Hb.
    inversion Ha; inversion Hb; subst.
    pose proof (rows_of_dim_nth _ X a_ind HX Hla) as Hda.
    pose proof (rows_of_dim_nth _ X b_ind HX Hlb) as Hdb.
    split; [apply norm_sq_nonzero; assumption|].
    split; [apply norm_sq_nonzero; assumption|].
    eexists. apply _wcos_value; assumption.
  - eexists. apply _calculate_wocs_value; assumption.
  - rewrite _calculate_wocs_value by assumption. discriminate.
Qed.

Lemma degenerate_pairs_are_skipped_witness :
  rows_of_dim 1 [[0]; [1]; [2]] /\ in_range 3 [0; 1; 2]%nat /\
  exists v, _calculate_wocs [0] [[0]; [1]; [2]] [0; 1; 2]%nat = Ok v.
Proof.
  assert (HX : rows_of_dim (length [0]) [[0]; [1]; [2]])
    by (repeat constructor).
  assert (Hr : in_range (length [[0]; [1]; [2]]) [0; 1; 2]%nat)
    by (repeat constructor).
  split; [exact HX|split; [exact Hr|]].
  exact (proj1 (proj2 (proj2
           (degenerate_pairs_are_skipped [0] [[0]; [1]; [2]] [0; 1; 2]%nat
              HX Hr)))).
Defined.

(** ** Few collected values *)

(** The reading of the specification: whenever the loop has collected at most
    one value, the scorer returns the not-a-number sentinel. *)
Definition nan_when_at_most_one_value (p : Point) (X : Matrix)
    (X_ind : list nat) : Prop :=
  forall wcos_list,
    wocs_loop p X (combinations2 X_ind) [] = Ok wcos_list ->
    (length wcos_list <= 1)%nat ->
    _calculate_wocs p X X_ind = Ok NaN.

Lemma np_var_single (w : R) : np_var [w] = Fin 0.
Proof.
  unfold np_var, np_mean. cbn [length map Rsum fold_right INR]. f_equal. field.
Qed.

Lemma combinations2_short {A : Type} (l : list A) :
  (length l < 2)%nat -> combinations2 l = [].
Proof.
  destruct l as [|x [|y l]]; simpl; intros H; try reflexivity. lia.
Qed.

(** C2, as the code has it.  With the query point 0 and the two neighbours 1
    and 2 one pair is retained; the variance of its single value is 0, not
    the sentinel. *)
Lemma single_value_variance_is_zero :
  wocs_loop [0] [[1]; [2]] (combinations2 [0; 1]%nat) [] =
    Ok [wcos_of [0] [1] [2]]
  /\ _calculate_wocs [0] [[1]; [2]] [0; 1]%nat = Ok (Fin 0)
  /\ ~ nan_when_at_most_one_value [0] [[1]; [2]] [0; 1]%nat.
Proof.
  assert (H1 : [1] <> [0]) by (apply point1_neq; lra).
  assert (H2 : [2] <> [0]) by (apply point1_neq; lra).
  assert (HX : rows_of_dim (length [0]) [[1]; [2]]) by (repeat constructor).
  assert (Hl : wocs_loop [0] [[1]; [2]] (combinations2 [0; 1]%nat) [] =
               Ok [wcos_of [0] [1] [2]]).
  { rewrite wocs_loop_values; [|exact HX|repeat constructor].
    cbn [combinations2 map app flat_map].
    rewrite pair_values_retained by assumption. reflexivity. }
  assert (Hv : _calculate_wocs [0] [[1]; [2]] [0; 1]%nat = Ok (Fin 0)).
  { unfold _calculate_wocs. rewrite Hl. cbn [rbind].
    rewrite np_var_single. reflexivity. }
  split; [exact Hl|split; [exact Hv|]].
  intros Hclaim. specialize (Hclaim _ Hl (le_n 1)).
  rewrite Hv in Hclaim. discriminate.
Qed.

(** C2, amended.  When the loop has collected no value the scorer returns the
    not-a-number sentinel, and when it has collected exactly one value it
    returns the variance 0; in neither case does it raise.  Fewer than two
    neighbour indices give no pair, hence no value. *)
Theorem variance_of_few_values (p : Point) (X : Matrix) (X_ind : list nat)
    (wcos_list : list R) :
  wocs_loop p X (combinations2 X_ind) [] = Ok wcos_list ->
  (length wcos_list <= 1)%nat ->
  _calculate_wocs p X X_ind =
    Ok (match wcos_list with [] => NaN | _ :: _ => Fin 0 end)
  /\ ((length X_ind < 2)%nat -> wcos_list = []).
Proof.
  intros Hl Hlen. split.
  - unfold _calculate_wocs. rewrite Hl. cbn [rbind]. f_equal.
    destruct wcos_list as [|w [|w' l]]; cbn [length] in Hlen;
      [reflexivity|apply np_var_single|lia].
  - intros Hs. rewrite combinations2_short in Hl by assumption.
    cbn [wocs_loop] in Hl. congruence.
Qed.

Lemma variance_of_few_values_witness :
  wocs_loop [0] [[1]; [2]] (combinations2 [0; 1]%nat) [] =
    Ok [wcos_of [0] [1] [2]]
  /\ Nat.le (length [wcos_of [0] [1] [2]]) 1
  /\ _calculate_wocs [0] [[1]; [2]] [0; 1]%nat = Ok (Fin 0).
Proof.
  assert (H1 : [1] <> [0]) by (apply point1_neq; lra).
  assert (H2 : [2] <> [0]) by (apply point1_neq; lra).
  assert (Hl : wocs_loop [0] [[1]; [2]] (combinations2 [0; 1]%nat) [] =
               Ok [wcos_of [0] [1] [2]]).
  { rewrite wocs_loop_values; [|repeat constructor|repeat constructor].
    cbn [combinations2 map app flat_map].
    rewrite pair_values_retained by assumption. reflexivity. }
  split; [exact Hl|split; [apply le_n|]].
  exact (proj1 (variance_of_few_values [0] [[1]; [2]] [0; 1]%nat
                  [wcos_of [0] [1] [2]] Hl (le_n 1))).
Defined.

(** * The claims about the detector *)

(** The neighbour set [fit] passes to the scorer for training point [i]. *)
Definition fit_neighbors (m : string) (X : Matrix) (k : Z) (i : nat)
  : list nat :=
  if String.eqb m "fast" then neighbors_fast X k i
  else neighbors_default (length X) i.

(** The neighbour set [decision_function] passes to the scorer for the new
    point [q]. *)
Definition score_neighbors (m : string) (T : Matrix) (k : Z) (q : Point)
  : list nat :=
  if String.eqb m "fast" then neighbors_query T k q else seq 0 (length T).

Lemma nth_map_seq {A : Type} (f : nat -> A) (n i : nat) (d : A) :
  (i < n)%nat -> nth i (map f (seq 0 n)) d = f i.
Proof.
  intros Hi. rewrite (nth_indep _ d (f 0%nat)) by (rewrite length_map, length_seq; lia).
  rewrite map_nth, seq_nth by assumption. reflexivity.
Qed.

Lemma nth_map_rows {B : Type} (g : Point -> B) (Q : Matrix) (i : nat) (d : B) :
  (i < length Q)%nat -> nth i (map g Q) d = g (nth i Q []).
Proof.
  intros Hi. rewrite (nth_indep _ d (g [])) by (rewrite length_map; assumption).
  apply map_nth.
Qed.

Lemma nth_flip (raws : list npfloat) (i : nat) :
  nth i (flip raws) NaN = np_mul (nth i raws NaN) (Fin (-1)).
Proof.
  unfold flip.
  exact (map_nth (fun x => np_mul x (Fin (-1))) raws NaN i).
Qed.

Section DetectorClaims.

Variable BaseState : Type.
Variable check_parameter : Z -> Z -> Z -> result unit.
Variable _set_n_classes : BaseState -> BaseState.
Variable _process_decision_scores : list npfloat -> BaseState -> BaseState.
Variable has_threshold_labels : BaseState -> bool.

Local Abbreviation ABOD := (ABOD BaseState).
Local Abbreviation fit' :=
  (fit check_parameter _set_n_classes _process_decision_scores).
Local Abbreviation fitted' :=
  (fitted BaseState _set_n_classes _process_decision_scores).
Local Abbreviation half_fitted' := (half_fitted BaseState _set_n_classes).
Local Abbreviation decision_function' :=
  (decision_function has_threshold_labels).

(** A successful [fit] ran one of the two scoring loops to the end. *)
Lemma fit_ok_inv (s s' : ABOD) (X : Matrix) :
  fit' X s = (s', Ok tt) ->
  check_array X = Ok X
  /\ ((method s = "fast"%string
       /\ check_parameter (n_neighbors s) 1 (Z.of_nat (length X)) = Ok tt
       /\ (1 <= n_neighbors s < Z.of_nat (length X))%Z
       /\ s' = fitted' (base s) (method s) (n_neighbors s) X
                 (map (raw_of X (neighbors_fast X (n_neighbors s)))
                    (seq 0 (length X)))
                 (Some (mkKDTree X)))
      \/ (method s = "default"%string
          /\ s' = fitted' (base s) (method s) (n_neighbors s) X
                    (map (raw_of X (neighbors_default (length X)))
                       (seq 0 (length X)))
                    (tree_ s))).
Proof.
  intros H. destruct (check_array X) as [X0|e] eqn:HX.
  - destruct (check_array_ok X X0 HX) as (E & _). subst X0.
    split; [reflexivity|].
    destruct (string_dec (method s) "fast") as [Hf|Hf].
    + left.
      destruct (check_parameter (n_neighbors s) 1 (Z.of_nat (length X)))
        as [[]|e] eqn:Hc.
      * destruct (Z_le_dec 1 (n_neighbors s)) as [H1|H1];
          [destruct (Z_lt_dec (n_neighbors s) (Z.of_nat (length X)))
             as [H2|H2]|].
        -- rewrite (fit_fast_run _ _ _ _ s X HX Hf Hc (conj H1 H2)) in H.
           inversion H. repeat split; try assumption; reflexivity.
        -- rewrite (fit_fast_query_rejects _ _ _ _ s X HX Hf Hc) in H
             by lia. inversion H.
        -- rewrite (fit_fast_query_rejects _ _ _ _ s X HX Hf Hc) in H
             by lia. inversion H.
      * rewrite (fit_fast_rejects _ _ _ _ s X e HX Hf Hc) in H.
        inversion H.
    + destruct (string_dec (method s) "default") as [Hd|Hd].
      * right. rewrite (fit_default_run _ _ _ _ s X HX Hd) in H.
        inversion H. split; [assumption|reflexivity].
      * rewrite (fit_bad_method _ _ _ _ s X HX Hf Hd) in H. inversion H.
  - rewrite (fit_bad_array _ _ _ _ s X e HX) in H. inversion H.
Qed.

(** After a successful [fit] the flat score array holds the flipped raw
    scores of the training points, each computed on its neighbour set. *)
Lemma fit_ok_scores (s s' : ABOD) (X : Matrix) :
  fit' X s = (s', Ok tt) ->
  rows_of_dim (dim X) X
  /\ decision_scores_ s' =
     Some (Arr1 (flip (map (raw_of X (fit_neighbors (method s) X (n_neighbors s)))
                         (seq 0 (length X)))))
  /\ forall i, (i < length X)%nat ->
       in_range (length X) (fit_neighbors (method s) X (n_neighbors s) i).
Proof.
  intros H. destruct (fit_ok_inv s s' X H) as (HX & Hcase).
  destruct (check_array_ok X X HX) as (_ & _ & _ & Hd).
  split; [exact Hd|].
  unfold fit_neighbors.
  destruct Hcase as [(Hf & _ & _ & Hs)|(Hdm & Hs)]; subst s'.
  - rewrite Hf. cbn [String.eqb Ascii.eqb Bool.eqb]. split; [reflexivity|].
    intros i _. apply neighbors_fast_in_range.
  - rewrite Hdm. cbn [String.eqb Ascii.eqb Bool.eqb]. split; [reflexivity|].
    intros i Hi. apply neighbors_default_in_range, Hi.
Qed.

Lemma nth_error_flip_map_seq (f : nat -> npfloat) (n i : nat) :
  (i < n)%nat ->
  nth_error (flip (map f (seq 0 n))) i = Some (np_mul (f i) (Fin (-1))).
Proof.
  intros Hi. unfold flip. rewrite !nth_error_map, nth_error_seq.
  replace (Nat.ltb i n) with true by (symmetry; apply Nat.ltb_lt; lia).
  reflexivity.
Qed.

(** C8. After a successful [fit], [decision_scores_] is the raw score array
    multiplied by -1, the raw score of training point [i] being what the
    scorer returns for it; on new points of the training dimension
    [decision_function] returns the scorer's results multiplied by -1; and
    the multiplication reverses the order of two finite raw scores. *)
Theorem published_scores_negate_raw_scores (s s' : ABOD) (X : Matrix) :
  fit' X s = (s', Ok tt) ->
  (forall sc b, has_threshold_labels (_process_decision_scores sc b) = true) ->
  (exists raws,
      decision_scores_ s' = Some (Arr1 (flip raws))
      /\ length raws = length X
      /\ forall i, (i < length X)%nat ->
           _calculate_wocs (nth i X []) X
             (fit_neighbors (method s) X (n_neighbors s) i)
           = Ok (nth i raws NaN)
           /\ nth i (flip raws) NaN = np_mul (nth i raws NaN) (Fin (-1)))
  /\ (forall Q, check_array Q = Ok Q -> dim Q = dim X ->
        exists raws,
          decision_function' s' Q = Ok (flip raws)
          /\ length raws = length Q
          /\ forall i, (i < length Q)%nat ->
               _calculate_wocs (nth i Q []) X
                 (score_neighbors (method s) X (n_neighbors s) (nth i Q []))
               = Ok (nth i raws NaN)
               /\ nth i (flip raws) NaN
                  = np_mul (nth i raws NaN) (Fin (-1)))
  /\ (forall r1 r2, r1 < r2 ->
        np_mul (Fin r1) (Fin (-1)) = Fin (r1 * -1)
        /\ np_mul (Fin r2) (Fin (-1)) = Fin (r2 * -1)
        /\ r2 * -1 < r1 * -1).
Proof.
  intros H Hbase.
  destruct (fit_ok_scores s s' X H) as (Hd & Hds & Hnb).
  split; [|split].
  - eexists. split; [exact Hds|].
    split; [rewrite length_map, length_seq; reflexivity|].
    intros i Hi. rewrite nth_map_seq by assumption.
    split; [|rewrite nth_flip, nth_map_seq by assumption; reflexivity].
    apply raw_of_value; [assumption|assumption|apply Hnb, Hi].
  - intros Q HQ HdimQ.
    destruct (check_array_ok Q Q HQ) as (_ & _ & _ & HdQ).
    rewrite HdimQ in HdQ.
    exists (map (fun q => score_of X q
                   (score_neighbors (method s) X (n_neighbors s) q)) Q).
    split; [|split; [apply length_map|]].
    + destruct (fit_ok_inv s s' X H) as (HX & Hcase).
      unfold decision_function, score_neighbors.
      destruct Hcase as [(Hf & _ & Hk & Hs)|(Hdm & Hs)]; subst s'.
      * unfold fitted. cbn [X_train_ n_train_ decision_scores_ base method
                             is_some andb].
        rewrite Hbase. cbn [check_is_fitted rbind]. rewrite HQ.
        cbn [rbind]. rewrite Hf. cbn [String.eqb Ascii.eqb Bool.eqb].
        rewrite (_decision_function_fast_run _ _ X Q);
          [reflexivity|reflexivity|reflexivity|cbn [n_neighbors]; lia
          |assumption|assumption].
      * unfold fitted. cbn [X_train_ n_train_ decision_scores_ base method
                             is_some andb].
        rewrite Hbase. cbn [check_is_fitted rbind]. rewrite HQ.
        cbn [rbind]. rewrite Hdm. cbn [String.eqb Ascii.eqb Bool.eqb].
        rewrite (_decision_function_default_run _ _ X Q);
          [reflexivity|reflexivity|reflexivity|assumption|assumption].
    + intros i Hi.
      rewrite (nth_map_rows
                 (fun q => score_of X q
                    (score_neighbors (method s) X (n_neighbors s) q)))
        by assumption.
      split; [|rewrite nth_flip, (nth_map_rows
                 (fun q => score_of X q
                    (score_neighbors (method s) X (n_neighbors s) q)))
                 by assumption; reflexivity].
      apply _calculate_wocs_value.
      * rewrite (rows_of_dim_nth (dim X) Q i HdQ Hi). exact Hd.
      * unfold score_neighbors. destruct (String.eqb (method s) "fast");
          [apply neighbors_query_in_range|apply seq_in_range].
  - intros r1 r2 Hr. repeat split; lra.
Qed.

(** C4, amended.  When [fit] fails because the range check rejects
    [n_neighbors] in the restricted mode, or because [method] is neither
    'fast' nor 'default', the error is raised before the tree is built and
    before any score is computed, but after the new training set, its size
    and a zero-filled score array have been stored and the base class has
    run [_set_n_classes]; [tree_], [method] and [n_neighbors] are as
    before. *)
Theorem failed_fit_overwrites_training_state (s : ABOD) (X : Matrix)
    (e : exn) :
  check_array X = Ok X ->
  (method s = "fast"%string
   /\ check_parameter (n_neighbors s) 1 (Z.of_nat (length X)) = Raise e)
  \/ (method s <> "fast"%string /\ method s <> "default"%string
      /\ e = ValueError) ->
  exists s',
    fit' X s = (s', Raise e)
    /\ X_train_ s' = Some X
    /\ n_train_ s' = Some (length X)
    /\ decision_scores_ s' = Some (np_zeros2 (length X) 1)
    /\ base s' = _set_n_classes (base s)
    /\ tree_ s' = tree_ s
    /\ method s' = method s
    /\ n_neighbors s' = n_neighbors s.
Proof.
  intros HX Hcase.
  exists (half_fitted' (base s) (method s) (n_neighbors s) X (tree_ s)).
  split; [|repeat split].
  destruct Hcase as [(Hf & Hc)|(Hf & Hd & He)].
  - apply fit_fast_rejects; assumption.
  - subst e. apply fit_bad_method; assumption.
Qed.

(** C5, amended.  On a valid training set of at least two points, fitting in
    the restricted mode with [n_neighbors = n_train - 1] (a value the range
    check accepts) and fitting in the exhaustive mode both succeed and leave
    the same [decision_scores_]. *)
Theorem full_neighbourhood_fit_matches_exhaustive (s_fast s_default : ABOD)
    (X : Matrix) :
  check_array X = Ok X ->
  method s_fast = "fast"%string ->
  n_neighbors s_fast = (Z.of_nat (length X) - 1)%Z ->
  (2 <= length X)%nat ->
  check_parameter (n_neighbors s_fast) 1 (Z.of_nat (length X)) = Ok tt ->
  method s_default = "default"%string ->
  snd (fit' X s_fast) = Ok tt
  /\ snd (fit' X s_default) = Ok tt
  /\ decision_scores_ (fst (fit' X s_fast))
     = decision_scores_ (fst (fit' X s_default)).
Proof.
  intros HX Hf Hk Hn Hc Hd.
  destruct (check_array_ok X X HX) as (_ & _ & _ & Hdim).
  rewrite (fit_fast_run _ _ _ _ s_fast X HX Hf Hc) by lia.
  rewrite (fit_default_run _ check_parameter _ _ s_default X HX Hd).
  cbn [fst snd]. split; [reflexivity|split; [reflexivity|]].
  unfold fitted. cbn [decision_scores_]. do 3 f_equal.
  apply map_ext_in. intros i Hi. apply in_seq in Hi.
  unfold raw_of, score_of. rewrite Hk.
  apply np_var_perm, retained_values_perm, Permutation_sym.
  apply neighbors_fast_full. lia.
Qed.

End DetectorClaims.

Section RestrictedRange.

Variable BaseState : Type.
Variable _set_n_classes : BaseState -> BaseState.
Variable _process_decision_scores : list npfloat -> BaseState -> BaseState.

Local Abbreviation fit_spec :=
  (fit check_parameter_spec _set_n_classes _process_decision_scores).

Lemma raw_of_single_neighbor (X : Matrix) (nb : nat -> list nat) (i : nat) :
  (length (nb i) < 2)%nat -> raw_of X nb i = NaN.
Proof.
  intros H. unfold raw_of, score_of.
  rewrite combinations2_short by assumption. reflexivity.
Qed.

(** C3. With the range check the specification describes, [fit] on a valid
    data matrix in the restricted mode raises ValueError exactly when
    [n_neighbors] is outside [1, n_train - 1] and returns otherwise.  With
    [n_neighbors = 1] on at least two points it returns, every row of the
    neighbour query has one index and yields no pair, and every published
    score is the not-a-number sentinel. *)
Theorem restricted_fit_range_check (s : ABOD BaseState) (X : Matrix) :
  check_array X = Ok X -> method s = "fast"%string ->
  (snd (fit_spec X s) = Raise ValueError
   <-> ~ (1 <= n_neighbors s <= Z.of_nat (length X) - 1)%Z)
  /\ (snd (fit_spec X s) = Ok tt
      <-> (1 <= n_neighbors s <= Z.of_nat (length X) - 1)%Z)
  /\ (n_neighbors s = 1%Z -> (2 <= length X)%nat ->
      snd (fit_spec X s) = Ok tt
      /\ (exists ind_arr,
             kneighbors X 1 = Ok ind_arr
             /\ length ind_arr = length X
             /\ Forall (fun X_ind => length X_ind = 1%nat
                                     /\ combinations2 X_ind = []) ind_arr)
      /\ decision_scores_ (fst (fit_spec X s))
         = Some (Arr1 (repeat NaN (length X)))).
Proof.
  intros HX Hf.
  assert (Hin : (1 <= n_neighbors s < Z.of_nat (length X))%Z ->
                fit_spec X s =
                (fitted BaseState _set_n_classes _process_decision_scores
                   (base s) (method s) (n_neighbors s) X
                   (map (raw_of X (neighbors_fast X (n_neighbors s)))
                      (seq 0 (length X)))
                   (Some (mkKDTree X)), Ok tt)).
  { intros Hk. apply fit_fast_run; try assumption.
    apply check_parameter_spec_accepts, Hk. }
  assert (Hout : ~ (1 <= n_neighbors s < Z.of_nat (length X))%Z ->
                 snd (fit_spec X s) = Raise ValueError).
  { intros Hk.
    rewrite (fit_fast_rejects _ _ _ _ s X ValueError HX Hf
               (check_parameter_spec_rejects _ _ Hk)). reflexivity. }
  split; [|split].
  - split.
    + intros Hr Hk. rewrite Hin in Hr by lia. discriminate.
    + intros Hk. apply Hout. lia.
  - split.
    + intros Hr.
      destruct (Z_le_dec 1 (n_neighbors s));
        [destruct (Z_le_dec (n_neighbors s) (Z.of_nat (length X) - 1));
         [lia|]|];
        rewrite Hout in Hr by lia; discriminate.
    + intros Hk. rewrite Hin by lia. reflexivity.
  - intros H1 Hn. rewrite Hin by lia. cbn [fst snd].
    split; [reflexivity|split].
    + exists (map (neighbors_fast X 1) (seq 0 (length X))).
      split; [apply kneighbors_value; lia|].
      split; [rewrite length_map, length_seq; reflexivity|].
      apply Forall_forall. intros X_ind Hi.
      apply in_map_iff in Hi. destruct Hi as (i & <- & Hi).
      apply in_seq in Hi.
      assert (Hl : length (neighbors_fast X 1 i) = 1%nat)
        by (rewrite neighbors_fast_length by lia; reflexivity).
      split; [exact Hl|apply combinations2_short; lia].
    + unfold fitted. cbn [decision_scores_]. do 2 f_equal. rewrite H1.
      rewrite (map_ext_in _ (fun _ => NaN)).
      * rewrite map_const, length_seq. unfold flip.
        rewrite map_repeat. reflexivity.
      * intros i Hi. apply in_seq in Hi.
        apply raw_of_single_neighbor.
        rewrite neighbors_fast_length by lia. cbn. lia.
Qed.

End RestrictedRange.

Section Scoring.

Variable BaseState : Type.
Variable has_threshold_labels : BaseState -> bool.

(** [decision_function] on a fitted detector and new points of the training
    dimension. *)
Lemma decision_function_run (self : ABOD BaseState) (T Q : Matrix) :
  X_train_ self = Some T -> n_train_ self = Some (length T) ->
  is_some (decision_scores_ self) = true ->
  has_threshold_labels (base self) = true ->
  (method self = "fast"%string ->
   tree_ self = Some (mkKDTree T)
   /\ (1 <= n_neighbors self <= Z.of_nat (length T))%Z) ->
  rows_of_dim (dim T) T -> check_array Q = Ok Q -> dim Q = dim T ->
  decision_function has_threshold_labels self Q =
  Ok (flip (map (fun q => score_of T q
                   (score_neighbors (method self) T (n_neighbors self) q))
              Q)).
Proof.
  intros HT Hn Hds Hb Hfast HdT HQ HdimQ.
  destruct (check_array_ok Q Q HQ) as (_ & _ & _ & HdQ).
  rewrite HdimQ in HdQ.
  unfold decision_function, score_neighbors.
  rewrite HT, Hn, Hds, Hb. cbn [is_some andb check_is_fitted rbind].
  rewrite HQ. cbn [rbind].
  destruct (String.eqb (method self) "fast") eqn:E.
  - apply String.eqb_eq in E. destruct (Hfast E) as (Ht & Hk).
    rewrite (_decision_function_fast_run _ self T Q) by assumption.
    reflexivity.
  - rewrite (_decision_function_default_run _ self T Q) by assumption.
    reflexivity.
Qed.

End Scoring.

(** * Concrete runs *)

(** A detector whose base class keeps no state of its own. *)
Definition unit_fit : Matrix -> ABOD unit -> ABOD unit * result unit :=
  fit check_parameter_spec (fun b => b) (fun _ b => b).

Definition unit_decision_function : ABOD unit -> Matrix
  -> result (list npfloat) :=
  decision_function (fun _ => true).

Definition two_points : Matrix := [[1]; [2]].
Definition three_points : Matrix := [[1]; [2]; [4]].

Lemma check_array_two_points : check_array two_points = Ok two_points.
Proof. reflexivity. Qed.

Lemma check_array_three_points : check_array three_points = Ok three_points.
Proof. reflexivity. Qed.

Lemma restricted_fit_range_check_witness :
  check_array two_points = Ok two_points
  /\ decision_scores_ (fst (unit_fit two_points (__init__ tt 1 "fast")))
     = Some (Arr1 [NaN; NaN]).
Proof.
  split; [exact check_array_two_points|].
  exact (proj2 (proj2 (proj2 (proj2
           (restricted_fit_range_check unit (fun b => b) (fun _ b => b)
              (__init__ tt 1 "fast") two_points
              check_array_two_points eq_refl))
           eq_refl (le_n 2)))).
Defined.

Lemma fit_three_points_fast :
  unit_fit three_points (__init__ tt 2 "fast") =
  (fitted unit (fun b => b) (fun _ b => b) tt "fast" 2 three_points
     (map (raw_of three_points (neighbors_fast three_points 2)) (seq 0 3))
     (Some (mkKDTree three_points)),
   Ok tt).
Proof.
  apply (fit_fast_run unit check_parameter_spec (fun b => b) (fun _ b => b)
           (__init__ tt 2 "fast") three_points);
    [reflexivity|reflexivity|reflexivity|cbn; lia].
Qed.

Lemma fit_three_points_default :
  unit_fit three_points (__init__ tt 2 "default") =
  (fitted unit (fun b => b) (fun _ b => b) tt "default" 2 three_points
     (map (raw_of three_points (neighbors_default 3)) (seq 0 3))
     None,
   Ok tt).
Proof.
  apply (fit_default_run unit check_parameter_spec (fun b => b) (fun _ b => b)
           (__init__ tt 2 "default") three_points); reflexivity.
Qed.

Lemma published_scores_negate_raw_scores_witness :
  exists s' raws,
    unit_fit three_points (__init__ tt 2 "fast") = (s', Ok tt)
    /\ decision_scores_ s' = Some (Arr1 (flip raws))
    /\ length raws = 3%nat.
Proof.
  destruct (published_scores_negate_raw_scores unit check_parameter_spec
              (fun b => b) (fun _ b => b) (fun _ => true)
              (__init__ tt 2 "fast") _ three_points
              fit_three_points_fast (fun _ _ => eq_refl))
    as ((raws & Hds & Hlen & _) & _).
  eexists. exists raws.
  split; [exact fit_three_points_fast|split; assumption].
Defined.

Lemma failed_fit_overwrites_training_state_witness :
  check_parameter_spec 0 1 2 = Raise ValueError
  /\ exists s',
       unit_fit two_points (__init__ tt 0 "fast") = (s', Raise ValueError)
       /\ X_train_ s' = Some two_points
       /\ tree_ s' = None.
Proof.
  split; [reflexivity|].
  destruct (failed_fit_overwrites_training_state unit check_parameter_spec
              (fun b => b) (fun _ b => b)
              (__init__ tt 0 "fast") two_points ValueError
              check_array_two_points (or_introl (conj eq_refl eq_refl)))
    as (s' & Hfit & HX & _ & _ & _ & Ht & _).
  exists s'. split; [exact Hfit|split; [exact HX|exact Ht]].
Defined.

Lemma full_neighbourhood_fit_matches_exhaustive_witness :
  check_parameter_spec 2 1 3 = Ok tt
  /\ decision_scores_ (fst (unit_fit three_points (__init__ tt 2 "fast")))
     = decision_scores_ (fst (unit_fit three_points (__init__ tt 2 "default"))).
Proof.
  split; [reflexivity|].
  exact (proj2 (proj2
           (full_neighbourhood_fit_matches_exhaustive unit check_parameter_spec
              (fun b => b) (fun _ b => b)
              (__init__ tt 2 "fast") (__init__ tt 2 "default") three_points
              check_array_three_points eq_refl eq_refl (le_S 2 2 (le_n 2))
              eq_refl eq_refl))).
Defined.

(** ** A failed re-fit *)

(** The reading of the specification: a [fit] that raises leaves the
    detector as it was. *)
Definition failed_fit_leaves_state_untouched (s : ABOD unit) (X : Matrix)
  : Prop :=
  forall e, snd (unit_fit X s) = Raise e -> fst (unit_fit X s) = s.

(** A detector fitted in the restricted mode with [n_neighbors = 2] on three
    points. *)
Definition fitted_on_three : ABOD unit :=
  fst (unit_fit three_points (__init__ tt 2 "fast")).

Lemma fitted_on_three_fields :
  X_train_ fitted_on_three = Some three_points
  /\ n_train_ fitted_on_three = Some 3%nat
  /\ tree_ fitted_on_three = Some (mkKDTree three_points)
  /\ method fitted_on_three = "fast"%string
  /\ n_neighbors fitted_on_three = 2%Z
  /\ base fitted_on_three = tt.
Proof.
  unfold fitted_on_three. rewrite fit_three_points_fast.
  repeat split.
Qed.

(** C4, as the code has it.  Re-fitting the fitted detector on two points
    fails the range check ([n_neighbors = 2 >= n_train = 2]); after the
    failure the detector holds the new training set, its size and a zero score
    array, next to the tree of the old training set.  An invalid method
    string on a fresh detector leaves the training set behind as well. *)
Lemma refit_failure_changes_state :
  snd (unit_fit three_points (__init__ tt 2 "fast")) = Ok tt
  /\ snd (unit_fit two_points fitted_on_three) = Raise ValueError
  /\ X_train_ (fst (unit_fit two_points fitted_on_three)) = Some two_points
  /\ n_train_ (fst (unit_fit two_points fitted_on_three)) = Some 2%nat
  /\ decision_scores_ (fst (unit_fit two_points fitted_on_three))
     = Some (Arr2 [[Fin 0]; [Fin 0]])
  /\ tree_ (fst (unit_fit two_points fitted_on_three))
     = Some (mkKDTree three_points)
  /\ ~ failed_fit_leaves_state_untouched fitted_on_three two_points
  /\ snd (unit_fit two_points (__init__ tt 5 "exact")) = Raise ValueError
  /\ X_train_ (fst (unit_fit two_points (__init__ tt 5 "exact")))
     = Some two_points
  /\ ~ failed_fit_leaves_state_untouched (__init__ tt 5 "exact") two_points.
Proof.
  destruct fitted_on_three_fields as (HX & Hn & Ht & Hm & Hk & Hb).
  assert (Hre : unit_fit two_points fitted_on_three =
                (half_fitted unit (fun b => b) tt "fast" 2 two_points
                   (Some (mkKDTree three_points)), Raise ValueError)).
  { unfold unit_fit.
    rewrite (fit_fast_rejects unit check_parameter_spec (fun b => b)
               (fun _ b => b) fitted_on_three two_points ValueError
               check_array_two_points Hm);
      [rewrite Hb, Hm, Hk, Ht; reflexivity|rewrite Hk; reflexivity]. }
  assert (Hbad : unit_fit two_points (__init__ tt 5 "exact") =
                 (half_fitted unit (fun b => b) tt "exact" 5 two_points None,
                  Raise ValueError)).
  { apply (fit_bad_method unit check_parameter_spec (fun b => b)
             (fun _ b => b) (__init__ tt 5 "exact") two_points
             check_array_two_points); discriminate. }
  split; [rewrite fit_three_points_fast; reflexivity|].
  rewrite Hre, Hbad. cbn [fst snd].
  repeat (split; [reflexivity|]).
  split; [|repeat (split; [reflexivity|])].
  - intros Hclaim. specialize (Hclaim ValueError).
    rewrite Hre in Hclaim. cbn [fst snd] in Hclaim.
    specialize (Hclaim eq_refl).
    apply (f_equal X_train_) in Hclaim. rewrite HX in Hclaim.
    discriminate Hclaim.
  - intros Hclaim. specialize (Hclaim ValueError).
    rewrite Hbad in Hclaim. cbn [fst snd] in Hclaim.
    specialize (Hclaim eq_refl).
    apply (f_equal X_train_) in Hclaim. discriminate Hclaim.
Qed.

(** ** Scoring a new point with the full neighbourhood size *)

Lemma linalg_norm_1d (x : R) : linalg_norm [x] = Rabs x.
Proof.
  unfold linalg_norm, dot. cbn [zip_with Rsum fold_right].
  rewrite Rplus_0_r. apply sqrt_Rsqr_abs.
Qed.

Lemma dist_to_1d (T : Matrix) (x y : R) (i : nat) :
  nth i T [] = [x] -> dist_to T [y] i = Rabs (x - y).
Proof.
  intros H. unfold dist_to. rewrite H. unfold vsub. cbn [zip_with].
  apply linalg_norm_1d.
Qed.

(** The two training points nearest to 0 are the first two. *)
Lemma neighbors_query_three :
  neighbors_query three_points 2 [0] = [0; 1]%nat.
Proof.
  unfold neighbors_query, sort_by_dist.
  change (Z.to_nat 2) with 2%nat.
  cbn [three_points length seq fold_right insert_by_dist].
  rewrite (dist_to_1d three_points 2 0 1 eq_refl).
  rewrite (dist_to_1d three_points 4 0 2 eq_refl).
  rewrite !Rabs_pos_eq by lra.
  destruct (Rle_dec (2 - 0) (4 - 0)) as [_|N]; [|exfalso; lra].
  cbn [insert_by_dist].
  rewrite (dist_to_1d three_points 1 0 0 eq_refl).
  rewrite (dist_to_1d three_points 2 0 1 eq_refl).
  rewrite !Rabs_pos_eq by lra.
  destruct (Rle_dec (1 - 0) (2 - 0)) as [_|N]; [|exfalso; lra].
  reflexivity.
Qed.

Lemma wcos_of_1d (q a b : R) :
  wcos_of [q] [a] [b] =
  (a - q) * (b - q) / ((a - q) * (a - q)) / ((b - q) * (b - q)).
Proof.
  unfold wcos_of. rewrite !linalg_norm_sq. unfold dot, vsub.
  cbn [zip_with Rsum fold_right]. rewrite !Rplus_0_r. reflexivity.
Qed.

(** A detector fitted in the exhaustive mode on the same three points. *)
Definition fitted_default_on_three : ABOD unit :=
  fst (unit_fit three_points (__init__ tt 2 "default")).

Lemma fitted_default_on_three_fields :
  X_train_ fitted_default_on_three = Some three_points
  /\ n_train_ fitted_default_on_three = Some 3%nat
  /\ method fitted_default_on_three = "default"%string
  /\ is_some (decision_scores_ fitted_default_on_three) = true.
Proof.
  unfold fitted_default_on_three. rewrite fit_three_points_default.
  repeat split.
Qed.

Lemma score_three_restricted :
  score_of three_points [0] (neighbors_query three_points 2 [0]) = Fin 0.
Proof.
  rewrite neighbors_query_three. unfold score_of.
  cbn [combinations2 map app flat_map].
  rewrite pair_values_retained by (apply point1_neq; lra).
  apply np_var_single.
Qed.

Lemma score_three_exhaustive :
  score_of three_points [0] (seq 0 (length three_points)) = Fin (7 / 288).
Proof.
  unfold score_of. cbn [three_points length seq combinations2 map app flat_map].
  rewrite !pair_values_retained by (apply point1_neq; lra).
  unfold three_points. cbn [nth app]. rewrite !wcos_of_1d.
  unfold np_var, np_mean. cbn [length map Rsum fold_right].
  replace (INR 3) with 3 by (simpl; lra).
  f_equal. field.
Qed.

(** C5, as the code has it.  With [n_neighbors = n_train - 1 = 2] the
    restricted detector scores the new point 0 on its two nearest training
    points only, one pair, variance 0; the exhaustive detector scores it on
    all three training points, three pairs, variance 7/288. *)
Lemma full_neighbourhood_scoring_differs :
  n_neighbors fitted_on_three = (Z.of_nat (length three_points) - 1)%Z
  /\ unit_decision_function fitted_on_three [[0]] = Ok [Fin (0 * -1)]
  /\ unit_decision_function fitted_default_on_three [[0]]
     = Ok [Fin (7 / 288 * -1)]
  /\ unit_decision_function fitted_on_three [[0]]
     <> unit_decision_function fitted_default_on_three [[0]].
Proof.
  destruct fitted_on_three_fields as (HX & Hn & Ht & Hm & Hk & Hb).
  assert (Hrows : rows_of_dim (dim three_points) three_points)
    by (repeat constructor).
  assert (Hfast : unit_decision_function fitted_on_three [[0]]
                  = Ok [Fin (0 * -1)]).
  { unfold unit_decision_function.
    rewrite (decision_function_run unit (fun _ => true) fitted_on_three
               three_points [[0]] HX Hn);
      [|unfold fitted_on_three; rewrite fit_three_points_fast; reflexivity
       |reflexivity
       |intros _; split; [exact Ht|rewrite Hk; cbn; lia]
       |exact Hrows|reflexivity|reflexivity].
    rewrite Hm, Hk. unfold score_neighbors.
    cbn [String.eqb Ascii.eqb Bool.eqb map flip].
    rewrite score_three_restricted. reflexivity. }
  assert (Hdef : unit_decision_function fitted_default_on_three [[0]]
                 = Ok [Fin (7 / 288 * -1)]).
  { destruct fitted_default_on_three_fields as (HX' & Hn' & Hm' & Hds').
    unfold unit_decision_function.
    rewrite (decision_function_run unit (fun _ => true)
               fitted_default_on_three three_points [[0]] HX' Hn' Hds');
      [|reflexivity|rewrite Hm'; intros E; discriminate E
       |exact Hrows|reflexivity|reflexivity].
    rewrite Hm'. unfold score_neighbors.
    cbn [String.eqb Ascii.eqb Bool.eqb map flip].
    rewrite score_three_exhaustive. reflexivity. }
  split; [rewrite Hk; reflexivity|].
  rewrite Hfast, Hdef. repeat (split; [reflexivity|]).
  intros E. inversion E as [E']. lra.
Qed.

(** * Further properties of the scorer *)

(** X1. On a data matrix whose rows have the dimension of the query point,
    the scorer's result does not depend on the order in which the neighbour
    indices are listed. *)
Theorem scorer_ignores_neighbor_order (p : Point) (X : Matrix)
    (X_ind X_ind' : list nat) :
  rows_of_dim (length p) X -> in_range (length X) X_ind ->
  Permutation X_ind X_ind' ->
  _calculate_wocs p X X_ind = _calculate_wocs p X X_ind'
  /\ exists v, _calculate_wocs p X X_ind = Ok v.
Proof.
  intros HX Hr HP. split.
  - apply _calculate_wocs_perm; assumption.
  - eexists. apply _calculate_wocs_value; assumption.
Qed.

Lemma scorer_ignores_neighbor_order_witness :
  Permutation [0; 1; 2]%nat [2; 0; 1]%nat
  /\ _calculate_wocs [0] three_points [0; 1; 2]%nat
     = _calculate_wocs [0] three_points [2; 0; 1]%nat.
Proof.
  assert (HP : Permutation [0; 1; 2]%nat [2; 0; 1]%nat).
  { apply Permutation_sym.
    exact (Permutation_cons_append [0; 1]%nat 2%nat). }
  split; [exact HP|].
  refine (proj1 (scorer_ignores_neighbor_order [0] three_points
                   [0; 1; 2]%nat [2; 0; 1]%nat _ _ HP));
    repeat constructor.
Defined.

(** ** The range of the weighted cosine *)

(** Cauchy and Schwarz, one coordinate at a time. *)
Lemma cross_term_bound (x y s A B : R) :
  0 <= A -> 0 <= B -> s * s <= A * B ->
  2 * (x * y * s) <= A * (y * y) + B * (x * x).
Proof.
  intros HA HB Hs.
  destruct (Rle_lt_dec (2 * (x * y * s)) (A * (y * y) + B * (x * x)))
    as [H|H]; [exact H|exfalso].
  assert (H0 : 0 <= A * (y * y) + B * (x * x)).
  { pose proof (Rle_0_sqr x) as Hx. pose proof (Rle_0_sqr y) as Hy.
    unfold Rsqr in *. nra. }
  assert (H1 : (A * (y * y) + B * (x * x)) * (A * (y * y) + B * (x * x))
               < (2 * (x * y * s)) * (2 * (x * y * s))) by nra.
  assert (H2 : 0 <= (A * (y * y) - B * (x * x)) * (A * (y * y) - B * (x * x)))
    by (pose proof (Rle_0_sqr (A * (y * y) - B * (x * x))) as Hq;
        unfold Rsqr in Hq; exact Hq).
  assert (H3 : 0 <= (x * y) * (x * y))
    by (pose proof (Rle_0_sqr (x * y)) as Hq; unfold Rsqr in Hq; exact Hq).
  assert (H4 : (x * y) * (x * y) * (s * s) <= (x * y) * (x * y) * (A * B))
    by (apply Rmult_le_compat_l; assumption).
  nra.
Qed.

Lemma dot_cauchy_schwarz (u : Point) :
  forall v, dot u v * dot u v <= dot u u * dot v v.
Proof.
  induction u as [|x u IH]; intros [|y v].
  - unfold dot. simpl. lra.
  - unfold dot at 1 2 3. simpl. pose proof (dot_self_nonneg (y :: v)). lra.
  - unfold dot at 1 2 4. simpl. pose proof (dot_self_nonneg (x :: u)). lra.
  - pose proof (IH v) as Hs.
    pose proof (dot_self_nonneg u) as HA.
    pose proof (dot_self_nonneg v) as HB.
    pose proof (cross_term_bound x y (dot u v) (dot u u) (dot v v) HA HB Hs)
      as Hc.
    change (dot (x :: u) (y :: v)) with (x * y + dot u v).
    change (dot (x :: u) (x :: u)) with (x * x + dot u u).
    change (dot (y :: v) (y :: v)) with (y * y + dot v v).
    clear IH. set (s := dot u v) in *. set (A := dot u u) in *.
    set (B := dot v v) in *. nra.
Qed.

Lemma linalg_norm_nonneg (u : Point) : 0 <= linalg_norm u.
Proof. unfold linalg_norm. apply sqrt_pos. Qed.

(** X2. For non-degenerate points of one dimension the weighted cosine is the
    cosine of the angle divided by the product of the two distances: its
    product with both displacement norms lies in [-1, 1]. *)
Theorem wcos_times_norms_is_a_cosine (p a b : Point) :
  length a = length p -> length b = length p -> a <> p -> b <> p ->
  exists w,
    _wcos p a b = Ok w
    /\ -1 <= w * (linalg_norm (vsub a p) * linalg_norm (vsub b p)) <= 1.
Proof.
  intros Ha Hb Hap Hbp. eexists. split; [apply _wcos_value; assumption|].
  pose proof (norm_sq_nonzero a p Ha Hap) as HnA.
  pose proof (norm_sq_nonzero b p Hb Hbp) as HnB.
  pose proof (linalg_norm_nonneg (vsub a p)) as H0a.
  pose proof (linalg_norm_nonneg (vsub b p)) as H0b.
  pose proof (dot_cauchy_schwarz (vsub a p) (vsub b p)) as Hcs.
  rewrite <- !linalg_norm_sq in Hcs.
  set (na := linalg_norm (vsub a p)) in *.
  set (nb := linalg_norm (vsub b p)) in *.
  set (d := dot (vsub a p) (vsub b p)) in *.
  assert (Hpa : 0 < na) by (destruct H0a as [H|H]; [exact H|];
                            exfalso; apply HnA; rewrite <- H; ring).
  assert (Hpb : 0 < nb) by (destruct H0b as [H|H]; [exact H|];
                            exfalso; apply HnB; rewrite <- H; ring).
  assert (Hprod : 0 < na * nb) by (apply Rmult_lt_0_compat; assumption).
  replace (d / na ^ 2 / nb ^ 2 * (na * nb)) with (d / (na * nb))
    by (field; split; lra).
  assert (Habs : - (na * nb) <= d <= na * nb) by (split; nra).
  split.
  - apply (Rmult_le_reg_r (na * nb)); [exact Hprod|].
    unfold Rdiv. rewrite Rmult_assoc, Rinv_l by lra. lra.
  - apply (Rmult_le_reg_r (na * nb)); [exact Hprod|].
    unfold Rdiv. rewrite Rmult_assoc, Rinv_l by lra. lra.
Qed.

Lemma wcos_times_norms_is_a_cosine_witness :
  [1] <> [0] /\ [2] <> [0]
  /\ exists w,
       _wcos [0] [1] [2] = Ok w
       /\ -1 <= w * (linalg_norm (vsub [1] [0]) * linalg_norm (vsub [2] [0]))
          <= 1.
Proof.
  assert (H1 : [1] <> [0]) by (apply point1_neq; lra).
  assert (H2 : [2] <> [0]) by (apply point1_neq; lra).
  split; [exact H1|split; [exact H2|]].
  exact (wcos_times_norms_is_a_cosine [0] [1] [2] eq_refl eq_refl H1 H2).
Defined.

(** X3. The weighted cosine itself is not confined to [-1, 1], the range the
    docstring of [_wcos] gives: for a reference point closer than 1 to the
    query point, paired with itself, it exceeds 1. *)
Theorem wcos_exceeds_one_near_the_query (p a : Point) :
  length a = length p -> a <> p -> linalg_norm (vsub a p) ^ 2 < 1 ->
  exists w, _wcos p a a = Ok w /\ 1 < w.
Proof.
  intros Ha Hap Hlt.
  pose proof (norm_sq_nonzero a p Ha Hap) as Hn.
  exists (1 / linalg_norm (vsub a p) ^ 2). split.
  - rewrite _wcos_value by assumption. f_equal.
    rewrite <- (linalg_norm_sq (vsub a p)).
    set (N := linalg_norm (vsub a p) ^ 2) in *. field. exact Hn.
  - pose proof (dot_self_nonneg (vsub a p)) as H0.
    rewrite <- linalg_norm_sq in H0.
    set (N := linalg_norm (vsub a p) ^ 2) in *.
    assert (HN : 0 < N) by lra.
    apply (Rmult_lt_reg_r N); [exact HN|].
    unfold Rdiv. rewrite Rmult_assoc, Rinv_l by lra. lra.
Qed.

Lemma wcos_exceeds_one_near_the_query_witness :
  [/ 2] <> [0] /\ exists w, _wcos [0] [/ 2] [/ 2] = Ok w /\ 1 < w.
Proof.
  assert (H1 : [/ 2] <> [0]) by (apply point1_neq; lra).
  split; [exact H1|].
  refine (wcos_exceeds_one_near_the_query [0] [/ 2] eq_refl H1 _).
  rewrite linalg_norm_sq. unfold dot, vsub. simpl. lra.
Defined.

(** ** Moving and rescaling the data *)

Definition vadd (x t : Point) : Point := zip_with Rplus x t.

Definition vscale (c : R) (x : Point) : Point := map (Rmult c) x.

(** Every row shifted by [t]; every row multiplied by [c]. *)
Definition translate (t : Point) (X : Matrix) : Matrix :=
  map (fun r => vadd r t) X.

Definition rescale (c : R) (X : Matrix) : Matrix := map (vscale c) X.

Lemma vadd_length (x t : Point) :
  length x = length t -> length (vadd x t) = length t.
Proof. intros H. unfold vadd. rewrite zip_with_length; assumption. Qed.

Lemma vsub_vadd (a : Point) :
  forall p t, length a = length t -> length p = length t ->
              vsub (vadd a t) (vadd p t) = vsub a p.
Proof.
  unfold vsub, vadd.
  induction a as [|x a IH]; intros [|y p] [|z t] Ha Hp; simpl in *;
    try reflexivity; try discriminate.
  f_equal; [lra|]. apply IH; congruence.
Qed.

Lemma vadd_cancel (a : Point) :
  forall p t, length a = length t -> length p = length t ->
              vadd a t = vadd p t -> a = p.
Proof.
  unfold vadd.
  induction a as [|x a IH]; intros [|y p] [|z t] Ha Hp H; simpl in *;
    try reflexivity; try discriminate.
  inversion H. f_equal; [lra|]. apply (IH p t); congruence.
Qed.

Lemma array_equal_vadd (a p t : Point) :
  length a = length t -> length p = length t ->
  array_equal (vadd a t) (vadd p t) = array_equal a p.
Proof.
  intros Ha Hp. destruct (array_equal a p) eqn:E.
  - apply array_equal_true in E. subst. apply array_equal_true. reflexivity.
  - apply array_equal_false in E. apply array_equal_false.
    intros H. apply E. apply (vadd_cancel a p t); assumption.
Qed.

Lemma flat_map_ext_in {A B : Type} (f g : A -> list B) (l : list A) :
  (forall x, In x l -> f x = g x) -> flat_map f l = flat_map g l.
Proof.
  induction l as [|x l IH]; intros H; simpl; [reflexivity|].
  rewrite (H x (or_introl eq_refl)), IH; [reflexivity|].
  intros y Hy. apply H. right. exact Hy.
Qed.

Lemma pair_values_translate (p t : Point) (X : Matrix) (i j : nat) :
  rows_of_dim (length p) X -> length t = length p ->
  (i < length X)%nat -> (j < length X)%nat ->
  pair_values (vadd p t) (translate t X) (i, j) = pair_values p X (i, j).
Proof.
  intros HX Ht Hi Hj. unfold pair_values, translate. cbn [fst snd].
  rewrite !(nth_map_rows (fun r => vadd r t)) by assumption.
  pose proof (rows_of_dim_nth _ X i HX Hi) as Hli.
  pose proof (rows_of_dim_nth _ X j HX Hj) as Hlj.
  rewrite !array_equal_vadd by congruence.
  unfold wcos_of. rewrite !vsub_vadd by congruence. reflexivity.
Qed.

(** X4. The scorer is invariant under translation: shifting the query point
    and every row of the data by the same vector leaves its result
    unchanged. *)
Theorem scorer_is_translation_invariant (p t : Point) (X : Matrix)
    (X_ind : list nat) :
  rows_of_dim (length p) X -> length t = length p ->
  in_range (length X) X_ind ->
  _calculate_wocs (vadd p t) (translate t X) X_ind = _calculate_wocs p X X_ind.
Proof.
  intros HX Ht Hr.
  assert (HX' : rows_of_dim (length (vadd p t)) (translate t X)).
  { rewrite vadd_length by congruence. unfold rows_of_dim, translate in *.
    apply Forall_map. rewrite Forall_forall in *. intros r Hin.
    apply vadd_length. rewrite (HX r Hin). congruence. }
  assert (Hr' : in_range (length (translate t X)) X_ind)
    by (unfold translate; rewrite length_map; exact Hr).
  rewrite (_calculate_wocs_value _ _ _ HX' Hr').
  rewrite (_calculate_wocs_value _ _ _ HX Hr).
  do 2 f_equal. apply flat_map_ext_in. intros [i j] Hin.
  destruct (combinations2_in X_ind i j Hin) as [Hi Hj].
  unfold in_range in Hr. rewrite Forall_forall in Hr.
  apply pair_values_translate; auto.
Qed.

Lemma scorer_is_translation_invariant_witness :
  rows_of_dim 1 three_points
  /\ _calculate_wocs (vadd [0] [5]) (translate [5] three_points) [0; 1; 2]%nat
     = _calculate_wocs [0] three_points [0; 1; 2]%nat.
Proof.
  assert (HX : rows_of_dim (length [0]) three_points) by (repeat constructor).
  split; [exact HX|].
  refine (scorer_is_translation_invariant [0] [5] three_points
            [0; 1; 2]%nat HX eq_refl _).
  repeat constructor.
Defined.

Lemma vsub_vscale (c : R) (a : Point) :
  forall p, vsub (vscale c a) (vscale c p) = vscale c (vsub a p).
Proof.
  unfold vsub, vscale.
  induction a as [|x a IH]; intros [|y p]; simpl; try reflexivity.
  rewrite IH. f_equal. ring.
Qed.

Lemma dot_vscale (c : R) (u : Point) :
  forall v, dot (vscale c u) (vscale c v) = c * c * dot u v.
Proof.
  unfold dot, vscale.
  induction u as [|x u IH]; intros [|y v]; simpl; try ring.
  rewrite IH. ring.
Qed.

Lemma vscale_cancel (c : R) (a : Point) :
  c <> 0 -> forall p, vscale c a = vscale c p -> a = p.
Proof.
  intros Hc. unfold vscale.
  induction a as [|x a IH]; intros [|y p] H; simpl in *;
    try reflexivity; try discriminate.
  inversion H as [[Hx Ht]]. f_equal; [|apply IH; exact Ht].
  apply (Rmult_eq_reg_l c); assumption.
Qed.

Lemma array_equal_vscale (c : R) (a p : Point) :
  c <> 0 -> array_equal (vscale c a) (vscale c p) = array_equal a p.
Proof.
  intros Hc. destruct (array_equal a p) eqn:E.
  - apply array_equal_true in E. subst. apply array_equal_true. reflexivity.
  - apply array_equal_false in E. apply array_equal_false.
    intros H. apply E. apply (vscale_cancel c a Hc p H).
Qed.

Lemma wcos_of_vscale (c : R) (p a b : Point) :
  c <> 0 ->
  wcos_of (vscale c p) (vscale c a) (vscale c b)
  = wcos_of p a b * (/ c * / c).
Proof.
  intros Hc. unfold wcos_of.
  rewrite !vsub_vscale, !linalg_norm_sq, !dot_vscale.
  unfold Rdiv. rewrite !Rinv_mult.
  set (iA := / dot (vsub a p) (vsub a p)).
  set (iB := / dot (vsub b p) (vsub b p)).
  set (d := dot (vsub a p) (vsub b p)).
  field. exact Hc.
Qed.

Lemma pair_values_rescale (c : R) (p : Point) (X : Matrix) (i j : nat) :
  c <> 0 -> (i < length X)%nat -> (j < length X)%nat ->
  pair_values (vscale c p) (rescale c X) (i, j)
  = map (fun w => w * (/ c * / c)) (pair_values p X (i, j)).
Proof.
  intros Hc Hi Hj. unfold pair_values, rescale. cbn [fst snd].
  rewrite !(nth_map_rows (vscale c)) by assumption.
  rewrite !array_equal_vscale by assumption.
  destruct (array_equal (nth i X []) p || array_equal (nth j X []) p);
    [reflexivity|].
  cbn [map]. rewrite wcos_of_vscale by assumption. reflexivity.
Qed.

Lemma Rsum_map_mult {A : Type} (f : A -> R) (k : R) (l : list A) :
  Rsum (map (fun x => f x * k) l) = Rsum (map f l) * k.
Proof.
  unfold Rsum. induction l as [|x l IH]; simpl; [ring|]. rewrite IH. ring.
Qed.

Lemma np_var_scale (k : R) (l : list R) :
  np_var (map (fun w => w * k) l) = np_mul (np_var l) (Fin (k * k)).
Proof.
  destruct l as [|x l]; [reflexivity|].
  unfold np_var, np_mean. cbn [np_mul].
  set (l0 := x :: l). change (map (fun w => w * k) (x :: l))
    with (map (fun w => w * k) l0).
  destruct (map (fun w => w * k) l0) as [|y l1] eqn:E; [discriminate|].
  rewrite <- E. clear E y l1.
  rewrite length_map, map_map.
  rewrite (Rsum_map_mult (fun w => w) k l0), map_id.
  rewrite (map_ext _ (fun w => (w - Rsum l0 / INR (length l0))
                               * (w - Rsum l0 / INR (length l0)) * (k * k)))
    by (intros w; unfold Rdiv; ring).
  rewrite Rsum_map_mult. f_equal. unfold Rdiv. ring.
Qed.

Lemma flat_map_map_values {A : Type} (f : A -> list R) (g : R -> R)
    (l : list A) :
  flat_map (fun x => map g (f x)) l = map g (flat_map f l).
Proof.
  induction l as [|x l IH]; simpl; [reflexivity|].
  rewrite IH, map_app. reflexivity.
Qed.

(** X5. Rescaling is not neutral: multiplying the query point and every row
    of the data by [c <> 0] multiplies the scorer's result by [1 / c^4] (the
    sentinel stays the sentinel). *)
Theorem scorer_scales_with_inverse_fourth_power (c : R) (p : Point)
    (X : Matrix) (X_ind : list nat) :
  c <> 0 -> rows_of_dim (length p) X -> in_range (length X) X_ind ->
  exists v,
    _calculate_wocs p X X_ind = Ok v
    /\ _calculate_wocs (vscale c p) (rescale c X) X_ind
       = Ok (np_mul v (Fin (/ c * / c * (/ c * / c)))).
Proof.
  intros Hc HX Hr.
  assert (HX' : rows_of_dim (length (vscale c p)) (rescale c X)).
  { unfold vscale at 1. rewrite length_map. unfold rows_of_dim, rescale in *.
    apply Forall_map. rewrite Forall_forall in *. intros r Hin.
    unfold vscale. rewrite length_map. apply HX, Hin. }
  assert (Hr' : in_range (length (rescale c X)) X_ind)
    by (unfold rescale; rewrite length_map; exact Hr).
  eexists. split; [apply _calculate_wocs_value; assumption|].
  rewrite (_calculate_wocs_value _ _ _ HX' Hr'). f_equal.
  rewrite <- np_var_scale, <- flat_map_map_values. f_equal.
  apply flat_map_ext_in. intros [i j] Hin.
  destruct (combinations2_in X_ind i j Hin) as [Hi Hj].
  unfold in_range in Hr. rewrite Forall_forall in Hr.
  apply pair_values_rescale; auto.
Qed.

Lemma scorer_scales_with_inverse_fourth_power_witness :
  2 <> 0
  /\ exists v,
       _calculate_wocs [0] three_points [0; 1; 2]%nat = Ok v
       /\ _calculate_wocs (vscale 2 [0]) (rescale 2 three_points) [0; 1; 2]%nat
          = Ok (np_mul v (Fin (/ 2 * / 2 * (/ 2 * / 2)))).
Proof.
  assert (H2 : 2 <> 0) by lra.
  split; [exact H2|].
  refine (scorer_scales_with_inverse_fourth_power 2 [0] three_points
            [0; 1; 2]%nat H2 _ _); repeat constructor.
Defined.

(** ** A query point of another shape *)

Lemma np_sub_broadcast (y : R) (a : Point) :
  (2 <= length a)%nat -> np_sub a [y] = Ok (map (fun xi => xi - y) a).
Proof.
  intros H. destruct a as [|a0 [|a1 a]]; simpl in H; try lia.
  reflexivity.
Qed.

Lemma dot_zero_displacement (x : R) (n : nat) :
  dot (map (fun xi => xi - x) (repeat x n))
      (map (fun xi => xi - x) (repeat x n)) = 0.
Proof.
  unfold dot. induction n as [|n IH]; simpl; [reflexivity|].
  rewrite IH. ring.
Qed.

(** X6. The skip compares whole arrays, the subtraction broadcasts.  For a
    one-coordinate query point [[x]] and data rows of [d >= 2] coordinates,
    a row whose coordinates all equal [x] is not recognised as degenerate,
    its displacement is zero, and the loop raises ZeroDivisionError. *)
Theorem broadcast_query_defeats_the_skip (x : R) (d : nat) (b : Point)
    (X : Matrix) (a_ind b_ind : nat) (rest : list (nat * nat))
    (wcos_list : list R) :
  (2 <= d)%nat -> length b = d ->
  getrow X a_ind = Ok (repeat x d) -> getrow X b_ind = Ok b ->
  array_equal (repeat x d) [x] || array_equal b [x] = false
  /\ wocs_loop [x] X ((a_ind, b_ind) :: rest) wcos_list
     = Raise ZeroDivisionError.
Proof.
  intros Hd Hb Ha Hgb.
  assert (Hskip : array_equal (repeat x d) [x] || array_equal b [x] = false).
  { apply orb_false_iff. split; apply array_equal_false; intros E;
      apply (f_equal (@length R)) in E; rewrite ?repeat_length in E;
      simpl in E; lia. }
  split; [exact Hskip|].
  cbn [wocs_loop]. rewrite Ha, Hgb. cbn [rbind]. rewrite Hskip.
  unfold _wcos.
  rewrite (np_sub_broadcast x (repeat x d)) by (rewrite repeat_length; lia).
  rewrite (np_sub_broadcast x b) by lia.
  cbn [rbind]. unfold np_dot.
  rewrite !length_map, repeat_length, Hb, Nat.eqb_refl. cbn [rbind].
  rewrite linalg_norm_sq, dot_zero_displacement, njit_div_zero.
  reflexivity.
Qed.

Lemma broadcast_query_defeats_the_skip_witness :
  wocs_loop [3] [[3; 3]; [1; 2]] [(0, 1)%nat] [] = Raise ZeroDivisionError.
Proof.
  exact (proj2 (broadcast_query_defeats_the_skip 3 2 [1; 2]
                  [[3; 3]; [1; 2]] 0 1 [] []
                  (le_n 2) eq_refl eq_refl eq_refl)).
Defined.

(** * Further properties of the detector *)

Lemma Rsum_squares_nonneg {A : Type} (f : A -> R) (l : list A) :
  0 <= Rsum (map (fun x => f x * f x) l).
Proof.
  unfold Rsum. induction l as [|x l IH]; simpl; [lra|].
  pose proof (Rle_0_sqr (f x)) as H. unfold Rsqr in H. lra.
Qed.

Lemma np_var_nonneg (l : list R) (v : R) : np_var l = Fin v -> 0 <= v.
Proof.
  destruct l as [|x l]; [discriminate|]. unfold np_var. intros H.
  inversion H as [Hv]. clear H Hv.
  apply Rmult_le_pos.
  - exact (Rsum_squares_nonneg (fun w => w - np_mean (x :: l)) (x :: l)).
  - apply Rlt_le, Rinv_0_lt_compat.
    exact (lt_0_INR (length (x :: l)) (Nat.lt_0_succ (length l))).
Qed.

Lemma _calculate_wocs_nonneg (p : Point) (X : Matrix) (X_ind : list nat)
    (v : R) :
  _calculate_wocs p X X_ind = Ok (Fin v) -> 0 <= v.
Proof.
  unfold _calculate_wocs.
  destruct (wocs_loop p X (combinations2 X_ind) []) as [l|e]; cbn [rbind];
    [|discriminate].
  intros H. inversion H as [Hv]. apply (np_var_nonneg l), Hv.
Qed.

Lemma flat_map_all_nil {A B : Type} (f : A -> list B) (l : list A) :
  (forall x, In x l -> f x = []) -> flat_map f l = [].
Proof.
  induction l as [|x l IH]; intros H; simpl; [reflexivity|].
  rewrite (H x (or_introl eq_refl)), IH; [reflexivity|].
  intros y Hy. apply H. right. exact Hy.
Qed.

(** Pairs with the index [x] contribute nothing when [f] is empty on them. *)
Lemma combinations2_drop_index {A B : Type} (f : A * A -> list B) (x : A)
    (l2 : list A) :
  (forall y, f (x, y) = []) -> (forall y, f (y, x) = []) ->
  forall l1,
    flat_map f (combinations2 (l1 ++ x :: l2))
    = flat_map f (combinations2 (l1 ++ l2)).
Proof.
  intros Hl Hr. induction l1 as [|z l1 IH].
  - cbn [app combinations2]. rewrite flat_map_app.
    rewrite (flat_map_all_nil f (map (pair x) l2)); [reflexivity|].
    intros [a b] Hin. apply in_map_iff in Hin.
    destruct Hin as (y & Hy & _). rewrite <- Hy. apply Hl.
  - cbn [app combinations2]. rewrite !flat_map_app, IH. f_equal.
    rewrite !map_app, !flat_map_app. cbn [map flat_map].
    rewrite Hr. reflexivity.
Qed.

Lemma seq_split_at (n i : nat) :
  (i < n)%nat -> seq 0 n = seq 0 i ++ i :: seq (S i) (n - S i).
Proof.
  intros Hi. replace n with (i + S (n - S i))%nat at 1 by lia.
  rewrite seq_app. reflexivity.
Qed.

(** Scoring a training point against all rows gives its fit-time raw score:
    the pairs that contain the point itself are skipped. *)
Lemma score_of_training_point (X : Matrix) (i : nat) :
  (i < length X)%nat ->
  score_of X (nth i X []) (seq 0 (length X))
  = raw_of X (neighbors_default (length X)) i.
Proof.
  intros Hi. unfold raw_of, score_of, neighbors_default. f_equal.
  rewrite (seq_split_at (length X) i Hi) at 1.
  apply combinations2_drop_index; intros y; apply pair_values_skipped;
    [left|right]; reflexivity.
Qed.

Section DetectorExtras.

Variable BaseState : Type.
Variable check_parameter : Z -> Z -> Z -> result unit.
Variable _set_n_classes : BaseState -> BaseState.
Variable _process_decision_scores : list npfloat -> BaseState -> BaseState.
Variable has_threshold_labels : BaseState -> bool.

Local Abbreviation ABOD := (ABOD BaseState).
Local Abbreviation fit' :=
  (fit check_parameter _set_n_classes _process_decision_scores).
Local Abbreviation decision_function' :=
  (decision_function has_threshold_labels).
Local Abbreviation fit_inv :=
  (fit_ok_inv BaseState check_parameter _set_n_classes
     _process_decision_scores).
Local Abbreviation fit_scores :=
  (fit_ok_scores BaseState check_parameter _set_n_classes
     _process_decision_scores).

(** X7. Every published training score is the not-a-number sentinel or a
    non-positive number, because every finite result of the scorer is
    non-negative. *)
Theorem published_scores_are_nonpositive (s s' : ABOD) (X : Matrix) :
  fit' X s = (s', Ok tt) ->
  (exists scores,
      decision_scores_ s' = Some (Arr1 scores)
      /\ Forall (fun x => x = NaN \/ exists v, x = Fin v /\ v <= 0) scores)
  /\ (forall p T X_ind v, _calculate_wocs p T X_ind = Ok (Fin v) -> 0 <= v).
Proof.
  intros H. split; [|intros p T X_ind v; apply _calculate_wocs_nonneg].
  destruct (fit_scores s s' X H) as (Hd & Hds & Hnb).
  eexists. split; [exact Hds|].
  unfold flip. apply Forall_map, Forall_map, Forall_forall. intros i Hi.
  apply in_seq in Hi.
  destruct (raw_of X (fit_neighbors (method s) X (n_neighbors s)) i)
    as [v|] eqn:E; [right|left; reflexivity].
  exists (v * -1). split; [reflexivity|].
  assert (H0 : 0 <= v).
  { apply (_calculate_wocs_nonneg (nth i X []) X
             (fit_neighbors (method s) X (n_neighbors s) i)).
    rewrite raw_of_value; [rewrite E; reflexivity|assumption|lia|].
    apply Hnb. lia. }
  lra.
Qed.

(** X8. In the exhaustive mode, scoring the training set itself returns the
    scores [fit] published: the training point is among the rows it is scored
    against, but every pair that contains it is skipped. *)
Theorem exhaustive_scoring_reproduces_fit_scores (s s' : ABOD) (X : Matrix) :
  fit' X s = (s', Ok tt) -> method s = "default"%string ->
  (forall sc b, has_threshold_labels (_process_decision_scores sc b) = true) ->
  exists scores,
    decision_scores_ s' = Some (Arr1 scores)
    /\ decision_function' s' X = Ok scores.
Proof.
  intros H Hm Hbase. destruct (fit_inv s s' X H) as (HX & Hcase).
  destruct (check_array_ok X X HX) as (_ & _ & _ & Hd).
  destruct Hcase as [(Hf & _)|(_ & Hs)]; [congruence|]. subst s'.
  eexists. split; [reflexivity|].
  rewrite (decision_function_run BaseState has_threshold_labels _ X X);
    try reflexivity; try assumption.
  - unfold fitted. cbn [method n_neighbors]. rewrite Hm.
    unfold score_neighbors. cbn [String.eqb Ascii.eqb Bool.eqb].
    do 2 f_equal.
    rewrite <- (map_nth_seq (fun q => score_of X q (seq 0 (length X))) [] X).
    apply map_ext_in. intros i Hi. apply in_seq in Hi.
    apply score_of_training_point. lia.
  - apply Hbase.
  - unfold fitted. cbn [method]. rewrite Hm. intros E. discriminate E.
Qed.

(** X9. A successful [fit] starts from scratch: two detectors with the same
    base state, method and [n_neighbors] end with the same training set and
    scores whatever they held before, and in the restricted mode with the
    same state altogether.  In the exhaustive mode [tree_] is not touched, so
    a tree left by an earlier restricted fit stays. *)
Theorem refit_discards_prior_fitted_state (s1 s2 s1' : ABOD) (X : Matrix) :
  fit' X s1 = (s1', Ok tt) ->
  base s1 = base s2 -> method s1 = method s2 ->
  n_neighbors s1 = n_neighbors s2 ->
  exists s2',
    fit' X s2 = (s2', Ok tt)
    /\ X_train_ s2' = Some X /\ X_train_ s1' = Some X
    /\ n_train_ s2' = Some (length X)
    /\ decision_scores_ s2' = decision_scores_ s1'
    /\ base s2' = base s1'
    /\ (method s1 = "fast"%string -> s2' = s1')
    /\ (method s1 = "default"%string -> tree_ s2' = tree_ s2).
Proof.
  intros H Hb Hm Hk. destruct (fit_inv s1 s1' X H) as (HX & Hcase).
  destruct Hcase as [(Hf & Hc & Hr & Hs)|(Hd & Hs)]; subst s1'.
  - eexists. split.
    + apply fit_fast_run; first [assumption | congruence].
    + rewrite <- Hb, <- Hm, <- Hk. repeat split. congruence.
  - eexists. split.
    + apply fit_default_run; [assumption|congruence].
    + rewrite <- Hb, <- Hm, <- Hk. repeat split. congruence.
Qed.

(** X10. Whatever the range check lets through, a restricted fit does not
    succeed unless [1 <= n_neighbors < n_train]: the neighbour query on the
    training data needs one more point than neighbours.  In particular it
    never succeeds on a single training point. *)
Theorem restricted_fit_needs_fewer_neighbors_than_points (s : ABOD)
    (X : Matrix) :
  method s = "fast"%string ->
  ~ (1 <= n_neighbors s < Z.of_nat (length X))%Z ->
  exists s' e, fit' X s = (s', Raise e).
Proof.
  intros Hm Hk. destruct (fit' X s) as [s' [[]|e]] eqn:H.
  - destruct (fit_inv s s' X H) as (_ & [(_ & _ & Hr & _)|(Hd & _)]).
    + contradiction.
    + rewrite Hm in Hd. discriminate Hd.
  - exists s', e. reflexivity.
Qed.

(** X11. An exhaustive fit on one or two points succeeds and publishes only
    the sentinel: no point has two neighbours to form a pair. *)
Theorem exhaustive_fit_on_two_points_is_all_nan (s : ABOD) (X : Matrix) :
  check_array X = Ok X -> method s = "default"%string ->
  (length X <= 2)%nat ->
  snd (fit' X s) = Ok tt
  /\ decision_scores_ (fst (fit' X s)) = Some (Arr1 (repeat NaN (length X))).
Proof.
  intros HX Hm Hn. rewrite (fit_default_run _ _ _ _ s X HX Hm).
  cbn [fst snd]. split; [reflexivity|].
  unfold fitted. cbn [decision_scores_]. do 2 f_equal.
  rewrite (map_ext_in _ (fun _ => NaN)).
  - rewrite map_const, length_seq. unfold flip. rewrite map_repeat.
    reflexivity.
  - intros i Hi. apply in_seq in Hi. apply raw_of_single_neighbor.
    unfold neighbors_default. rewrite length_app, !length_seq. lia.
Qed.

(** X12. With [n_neighbors = 2] a restricted fit publishes, for every
    training point, either the sentinel or [0 * -1]: two neighbours form one
    pair, and the variance of one value is 0. *)
Theorem two_neighbors_give_constant_scores (s s' : ABOD) (X : Matrix) :
  fit' X s = (s', Ok tt) -> method s = "fast"%string ->
  n_neighbors s = 2%Z ->
  exists scores,
    decision_scores_ s' = Some (Arr1 scores)
    /\ length scores = length X
    /\ Forall (fun x => x = NaN \/ x = Fin (0 * -1)) scores.
Proof.
  intros H Hm Hk. destruct (fit_inv s s' X H) as (HX & Hcase).
  destruct Hcase as [(_ & _ & Hr & Hs)|(Hd & _)];
    [|rewrite Hm in Hd; discriminate Hd].
  subst s'. eexists. split; [reflexivity|].
  split; [unfold flip; rewrite !length_map, length_seq; reflexivity|].
  unfold flip. apply Forall_map, Forall_map, Forall_forall. intros i Hi.
  apply in_seq in Hi. rewrite Hk in *.
  pose proof (neighbors_fast_length X 2 i) as Hl.
  unfold raw_of, score_of.
  destruct (neighbors_fast X 2 i) as [|a [|b [|c l]]];
    cbn [length] in Hl; try (exfalso; lia).
  cbn [combinations2 map app flat_map]. rewrite app_nil_r.
  unfold pair_values.
  destruct (array_equal _ _ || array_equal _ _);
    [left; reflexivity|right; rewrite np_var_single; reflexivity].
Qed.

(** X13. When all training points coincide every pair is degenerate for
    every point, and a successful fit publishes only the sentinel. *)
Theorem coinciding_points_give_all_nan (s s' : ABOD) (X : Matrix) :
  fit' X s = (s', Ok tt) ->
  (forall r r', In r X -> In r' X -> r = r') ->
  decision_scores_ s' = Some (Arr1 (repeat NaN (length X))).
Proof.
  intros H Hsame. destruct (fit_scores s s' X H) as (Hd & Hds & Hnb).
  rewrite Hds. do 2 f_equal.
  rewrite (map_ext_in _ (fun _ => NaN)).
  - rewrite map_const, length_seq. unfold flip. rewrite map_repeat.
    reflexivity.
  - intros i Hi. apply in_seq in Hi. unfold raw_of, score_of.
    rewrite flat_map_all_nil; [reflexivity|].
    intros [a b] Hin.
    destruct (combinations2_in _ a b Hin) as [Ha _].
    assert (Hr : in_range (length X)
                   (fit_neighbors (method s) X (n_neighbors s) i))
      by (apply Hnb; lia).
    unfold in_range in Hr. rewrite Forall_forall in Hr.
    apply pair_values_skipped. left.
    apply Hsame; apply nth_In; [apply Hr, Ha|lia].
Qed.

(** X14. [decision_function] refuses with NotFittedError, without looking at
    its input, as long as one of the fitted attributes is missing; and a
    detector whose method is 'fast' but that holds no tree (fitted in the
    exhaustive mode, method changed afterwards) refuses valid input in the
    same way. *)
Theorem scoring_requires_fitted_state (self : ABOD) (Q : Matrix) :
  (is_some (X_train_ self) && is_some (n_train_ self)
   && is_some (decision_scores_ self)
   && has_threshold_labels (base self) = false)
  \/ (method self = "fast"%string /\ tree_ self = None
      /\ check_array Q = Ok Q) ->
  decision_function' self Q = Raise NotFittedError.
Proof.
  intros [H|(Hm & Ht & HQ)]; unfold decision_function.
  - rewrite H. reflexivity.
  - destruct (is_some (X_train_ self) && is_some (n_train_ self)
              && is_some (decision_scores_ self)
              && has_threshold_labels (base self)); [|reflexivity].
    cbn [check_is_fitted rbind]. rewrite HQ. cbn [rbind].
    rewrite Hm. cbn [String.eqb Ascii.eqb Bool.eqb].
    unfold _decision_function_fast. rewrite Ht. reflexivity.
Qed.

End DetectorExtras.

(** X15. The exhaustive mode neither validates nor uses [n_neighbors]: on a
    valid data matrix [fit] succeeds for any value of it and any range check,
    with the same scores. *)
Theorem exhaustive_fit_ignores_n_neighbors (BaseState : Type)
    (check1 check2 : Z -> Z -> Z -> result unit)
    (_set_n_classes : BaseState -> BaseState)
    (_process_decision_scores : list npfloat -> BaseState -> BaseState)
    (s1 s2 : ABOD BaseState) (X : Matrix) :
  check_array X = Ok X ->
  method s1 = "default"%string -> method s2 = "default"%string ->
  snd (fit check1 _set_n_classes _process_decision_scores X s1) = Ok tt
  /\ snd (fit check2 _set_n_classes _process_decision_scores X s2) = Ok tt
  /\ decision_scores_
       (fst (fit check1 _set_n_classes _process_decision_scores X s1))
     = decision_scores_
         (fst (fit check2 _set_n_classes _process_decision_scores X s2)).
Proof.
  intros HX H1 H2.
  rewrite (fit_default_run _ check1 _ _ s1 X HX H1).
  rewrite (fit_default_run _ check2 _ _ s2 X HX H2).
  repeat split.
Qed.

(** ** Concrete runs of the further properties *)

Lemma published_scores_are_nonpositive_witness :
  exists s' scores,
    unit_fit three_points (__init__ tt 2 "fast") = (s', Ok tt)
    /\ decision_scores_ s' = Some (Arr1 scores)
    /\ Forall (fun x => x = NaN \/ exists v, x = Fin v /\ v <= 0) scores.
Proof.
  destruct (proj1 (published_scores_are_nonpositive unit check_parameter_spec
                     (fun b => b) (fun _ b => b)
                     (__init__ tt 2 "fast") _ three_points
                     fit_three_points_fast))
    as (scores & Hds & Hall).
  eexists. exists scores.
  split; [exact fit_three_points_fast|split; assumption].
Defined.

Lemma exhaustive_scoring_reproduces_fit_scores_witness :
  exists s' scores,
    unit_fit three_points (__init__ tt 2 "default") = (s', Ok tt)
    /\ decision_scores_ s' = Some (Arr1 scores)
    /\ unit_decision_function s' three_points = Ok scores.
Proof.
  destruct (exhaustive_scoring_reproduces_fit_scores unit check_parameter_spec
              (fun b => b) (fun _ b => b) (fun _ => true)
              (__init__ tt 2 "default") _ three_points
              fit_three_points_default eq_refl (fun _ _ => eq_refl))
    as (scores & Hds & Hdf).
  eexists. exists scores.
  split; [exact fit_three_points_default|split; assumption].
Defined.

Lemma refit_discards_prior_fitted_state_witness :
  exists s1' s2',
    unit_fit three_points (__init__ tt 2 "fast") = (s1', Ok tt)
    /\ unit_fit three_points fitted_on_three = (s2', Ok tt)
    /\ s2' = s1'.
Proof.
  destruct fitted_on_three_fields as (_ & _ & _ & Hm & Hk & Hb).
  destruct (refit_discards_prior_fitted_state unit check_parameter_spec
              (fun b => b) (fun _ b => b)
              (__init__ tt 2 "fast") fitted_on_three _ three_points
              fit_three_points_fast (eq_sym Hb) (eq_sym Hm) (eq_sym Hk))
    as (s2' & Hfit & _ & _ & _ & _ & _ & Hsame & _).
  eexists. exists s2'.
  split; [exact fit_three_points_fast|split; [exact Hfit|]].
  exact (Hsame eq_refl).
Defined.

Lemma restricted_fit_needs_fewer_neighbors_than_points_witness :
  ~ (1 <= 1 < Z.of_nat (length [[1]]))%Z
  /\ exists s' e, unit_fit [[1]] (__init__ tt 1 "fast") = (s', Raise e).
Proof.
  assert (Hk : ~ (1 <= 1 < Z.of_nat (length [[1]]))%Z)
    by (intros [_ H]; simpl in H; lia).
  split; [exact Hk|].
  exact (restricted_fit_needs_fewer_neighbors_than_points unit
           check_parameter_spec (fun b => b) (fun _ b => b)
           (__init__ tt 1 "fast") [[1]] eq_refl Hk).
Defined.

Lemma exhaustive_fit_on_two_points_is_all_nan_witness :
  check_array two_points = Ok two_points
  /\ decision_scores_ (fst (unit_fit two_points (__init__ tt 5 "default")))
     = Some (Arr1 [NaN; NaN]).
Proof.
  split; [exact check_array_two_points|].
  exact (proj2 (exhaustive_fit_on_two_points_is_all_nan unit
                  check_parameter_spec (fun b => b) (fun _ b => b)
                  (__init__ tt 5 "default") two_points
                  check_array_two_points eq_refl (le_n 2))).
Defined.

Lemma two_neighbors_give_constant_scores_witness :
  exists s' scores,
    unit_fit three_points (__init__ tt 2 "fast") = (s', Ok tt)
    /\ decision_scores_ s' = Some (Arr1 scores)
    /\ Forall (fun x => x = NaN \/ x = Fin (0 * -1)) scores.
Proof.
  destruct (two_neighbors_give_constant_scores unit check_parameter_spec
              (fun b => b) (fun _ b => b)
              (__init__ tt 2 "fast") _ three_points
              fit_three_points_fast eq_refl eq_refl)
    as (scores & Hds & _ & Hall).
  eexists. exists scores.
  split; [exact fit_three_points_fast|split; assumption].
Defined.

Lemma coinciding_points_give_all_nan_witness :
  exists s',
    unit_fit [[1]; [1]; [1]] (__init__ tt 2 "default") = (s', Ok tt)
    /\ decision_scores_ s' = Some (Arr1 [NaN; NaN; NaN]).
Proof.
  assert (Hfit : exists s',
             unit_fit [[1]; [1]; [1]] (__init__ tt 2 "default") = (s', Ok tt)).
  { eexists.
    apply (fit_default_run unit check_parameter_spec (fun b => b)
             (fun _ b => b) (__init__ tt 2 "default") [[1]; [1]; [1]]);
      reflexivity. }
  destruct Hfit as (s' & Hfit). exists s'. split; [exact Hfit|].
  refine (coinciding_points_give_all_nan unit check_parameter_spec
            (fun b => b) (fun _ b => b)
            (__init__ tt 2 "default") s' [[1]; [1]; [1]] Hfit _).
  intros r r' Hr Hr'. simpl in Hr, Hr'.
  destruct Hr as [<-|[<-|[<-|[]]]]; destruct Hr' as [<-|[<-|[<-|[]]]];
    reflexivity.
Defined.

Lemma scoring_requires_fitted_state_witness :
  unit_decision_function (__init__ tt 5 "fast") three_points
  = Raise NotFittedError.
Proof.
  exact (scoring_requires_fitted_state unit (fun _ => true)
           (__init__ tt 5 "fast") three_points (or_introl eq_refl)).
Defined.

Lemma exhaustive_fit_ignores_n_neighbors_witness :
  check_array three_points = Ok three_points
  /\ decision_scores_
       (fst (fit check_parameter_spec (fun b : unit => b) (fun _ b => b)
               three_points (__init__ tt 0 "default")))
     = decision_scores_
         (fst (fit (fun _ _ _ => Raise ValueError) (fun b : unit => b)
                 (fun _ b => b) three_points (__init__ tt 7 "default"))).
Proof.
  split; [exact check_array_three_points|].
  exact (proj2 (proj2
           (exhaustive_fit_ignores_n_neighbors unit check_parameter_spec
              (fun _ _ _ => Raise ValueError) (fun b => b) (fun _ b => b)
              (__init__ tt 0 "default") (__init__ tt 7 "default")
              three_points check_array_three_points eq_refl eq_refl))).
Defined.

(** ** Scoring training points in the restricted mode *)

Lemma insert_by_dist_in (T : Matrix) (q : Point) (i j : nat) (l : list nat) :
  In j (insert_by_dist T q i l) <-> j = i \/ In j l.
Proof.
  split; intros H.
  - apply (Permutation_in _ (insert_by_dist_perm T q i l)) in H.
    destruct H as [H|H]; [left; congruence|right; exact H].
  - apply (Permutation_in _ (Permutation_sym (insert_by_dist_perm T q i l))).
    destruct H as [H|H]; [left; congruence|right; exact H].
Qed.

(** The first index after sorting is a nearest one. *)
Lemma sort_by_dist_head_nearest (T : Matrix) (q : Point) (l : list nat) :
  forall j0 rest,
    sort_by_dist T q l = j0 :: rest ->
    forall j, In j l -> dist_to T q j0 <= dist_to T q j.
Proof.
  induction l as [|i l IH]; intros j0 rest Hs j Hj; [contradiction|].
  cbn [sort_by_dist fold_right] in Hs.
  change (fold_right (insert_by_dist T q) [] l) with (sort_by_dist T q l)
    in Hs.
  destruct (sort_by_dist T q l) as [|h s'] eqn:Es.
  - cbn [insert_by_dist] in Hs. inversion Hs; subst.
    destruct Hj as [<-|Hj]; [lra|].
    apply (Permutation_in _ (Permutation_sym (sort_by_dist_perm T q l))) in Hj.
    rewrite Es in Hj. contradiction.
  - pose proof (IH h s' eq_refl) as Hmin.
    cbn [insert_by_dist] in Hs.
    destruct (Rle_dec (dist_to T q i) (dist_to T q h)) as [Hle|Hgt].
    + inversion Hs; subst.
      destruct Hj as [<-|Hj]; [lra|].
      pose proof (Hmin j Hj). lra.
    + inversion Hs; subst.
      destruct Hj as [<-|Hj]; [lra|]. apply Hmin, Hj.
Qed.

Lemma dist_to_self (T : Matrix) (i : nat) : dist_to T (nth i T []) i = 0.
Proof.
  unfold dist_to. pose proof (norm_sq_zero_self (nth i T [])) as H.
  pose proof (linalg_norm_nonneg (vsub (nth i T []) (nth i T []))) as H0.
  nra.
Qed.

Lemma dist_to_zero_coincides (T : Matrix) (q : Point) (j : nat) :
  length (nth j T []) = length q -> dist_to T q j <= 0 -> nth j T [] = q.
Proof.
  intros Hlen Hd. destruct (list_eq_dec Req_dec_T (nth j T []) q) as [E|E];
    [exact E|exfalso].
  apply (norm_sq_nonzero _ _ Hlen E). unfold dist_to in Hd.
  pose proof (linalg_norm_nonneg (vsub (nth j T []) q)) as H0. nra.
Qed.

(** The nearest row the tree returns for a training point coincides with
    that point. *)
Lemma nearest_to_training_point (X : Matrix) (k : Z) (i : nat) :
  rows_of_dim (dim X) X -> (i < length X)%nat -> (1 <= k)%Z ->
  exists j0 rest,
    neighbors_query X k (nth i X []) = j0 :: rest
    /\ nth j0 X [] = nth i X [].
Proof.
  intros HX Hi Hk. unfold neighbors_query.
  destruct (sort_by_dist X (nth i X []) (seq 0 (length X))) as [|j0 s] eqn:Es.
  - pose proof (Permutation_length
                  (sort_by_dist_perm X (nth i X []) (seq 0 (length X)))) as Hl.
    rewrite Es, length_seq in Hl. simpl in Hl. lia.
  - destruct (Z.to_nat k) as [|k'] eqn:Ek; [lia|].
    cbn [firstn]. exists j0, (firstn k' s). split; [reflexivity|].
    assert (Hj0 : (j0 < length X)%nat).
    { assert (Hin : In j0 (sort_by_dist X (nth i X []) (seq 0 (length X))))
        by (rewrite Es; left; reflexivity).
      apply (Permutation_in _ (sort_by_dist_perm _ _ _)) in Hin.
      apply in_seq in Hin. lia. }
    apply dist_to_zero_coincides.
    + rewrite !(rows_of_dim_nth (dim X) X) by assumption. reflexivity.
    + rewrite <- (dist_to_self X i).
      apply (sort_by_dist_head_nearest X (nth i X []) _ j0 s Es).
      apply in_seq. lia.
Qed.

Section RestrictedScoring.

Variable BaseState : Type.
Variable check_parameter : Z -> Z -> Z -> result unit.
Variable _set_n_classes : BaseState -> BaseState.
Variable _process_decision_scores : list npfloat -> BaseState -> BaseState.
Variable has_threshold_labels : BaseState -> bool.

(** X16. In the restricted mode with [n_neighbors = 2], scoring the training
    set after a successful [fit] returns the sentinel for every training
    point: the tree query counts the point itself (or a row coinciding with
    it) as its nearest neighbour, and the only pair contains that row and is
    skipped. *)
Theorem restricted_scoring_counts_the_point_itself (s s' : ABOD BaseState)
    (X : Matrix) :
  fit check_parameter _set_n_classes _process_decision_scores X s
  = (s', Ok tt) ->
  method s = "fast"%string -> n_neighbors s = 2%Z ->
  (forall sc b, has_threshold_labels (_process_decision_scores sc b) = true) ->
  decision_function has_threshold_labels s' X
  = Ok (repeat NaN (length X)).
Proof.
  intros H Hm Hk Hbase.
  destruct (fit_ok_inv BaseState check_parameter _set_n_classes
              _process_decision_scores s s' X H) as (HX & Hcase).
  destruct (check_array_ok X X HX) as (_ & _ & _ & Hd).
  destruct Hcase as [(_ & _ & Hr & Hs)|(Hdm & _)];
    [|rewrite Hm in Hdm; discriminate Hdm].
  subst s'.
  rewrite (decision_function_run BaseState has_threshold_labels _ X X);
    try reflexivity; try assumption.
  - unfold fitted. cbn [method n_neighbors]. rewrite Hm, Hk.
    unfold score_neighbors. cbn [String.eqb Ascii.eqb Bool.eqb].
    f_equal.
    rewrite <- (map_nth_seq
                  (fun q => score_of X q (neighbors_query X 2 q)) [] X).
    rewrite (map_ext_in _ (fun _ => NaN)).
    + rewrite map_const, length_seq. unfold flip. rewrite map_repeat.
      reflexivity.
    + intros i Hi. apply in_seq in Hi.
      destruct (nearest_to_training_point X 2 i Hd) as (j0 & rest & Hq & Hj0);
        [lia|lia|].
      assert (Hl : (length (neighbors_query X 2 (nth i X [])) <= 2)%nat)
        by (unfold neighbors_query; rewrite length_firstn; lia).
      unfold score_of. rewrite Hq in *.
      destruct rest as [|j1 [|j2 rest]]; cbn [length] in Hl; [| |lia].
      * reflexivity.
      * cbn [combinations2 map app flat_map].
        rewrite pair_values_skipped by (left; exact Hj0). reflexivity.
  - apply Hbase.
  - intros _. split; [reflexivity|]. unfold fitted. cbn [n_neighbors]. lia.
Qed.

End RestrictedScoring.

Lemma restricted_scoring_counts_the_point_itself_witness :
  exists s',
    unit_fit three_points (__init__ tt 2 "fast") = (s', Ok tt)
    /\ unit_decision_function s' three_points = Ok [NaN; NaN; NaN].
Proof.
  eexists. split; [exact fit_three_points_fast|].
  exact (restricted_scoring_counts_the_point_itself unit check_parameter_spec
           (fun b => b) (fun _ b => b) (fun _ => true)
           (__init__ tt 2 "fast") _ three_points
           fit_three_points_fast eq_refl eq_refl (fun _ _ => eq_refl)).
Defined.

(** * The skip and the division *)

Lemma dot_constant_displacement (x : R) (a : Point) :
  Forall (fun xi => xi = x) a ->
  dot (map (fun xi => xi - x) a) (map (fun xi => xi - x) a) = 0.
Proof.
  unfold dot. induction a as [|y a IH]; intros H; simpl; [reflexivity|].
  inversion H as [|? ? Hy Ha]; subst. rewrite (IH Ha). ring.
Qed.

(** The loop on a first pair whose first row is constant [x], for the
    one-coordinate query point [[x]]: the pair is retained and the first
    division is by zero. *)
Lemma wocs_loop_zero_displacement (x : R) (a b : Point) (X : Matrix)
    (a_ind b_ind : nat) (rest : list (nat * nat)) (wcos_list : list R) :
  (2 <= length a)%nat -> length b = length a ->
  Forall (fun xi => xi = x) a ->
  getrow X a_ind = Ok a -> getrow X b_ind = Ok b ->
  wocs_loop [x] X ((a_ind, b_ind) :: rest) wcos_list
  = Raise ZeroDivisionError.
Proof.
  intros Hd Hb Hall Ha Hgb.
  assert (Hskip : array_equal a [x] || array_equal b [x] = false).
  { apply orb_false_iff. split; apply array_equal_false; intros E;
      apply (f_equal (@length R)) in E; simpl in E; lia. }
  pose proof (dot_constant_displacement x a Hall) as Hzero.
  cbn [wocs_loop]. rewrite Ha, Hgb. cbn [rbind]. rewrite Hskip.
  unfold _wcos.
  rewrite (np_sub_broadcast x a) by lia.
  rewrite (np_sub_broadcast x b) by lia.
  cbn [rbind]. unfold np_dot.
  rewrite !length_map, Hb, Nat.eqb_refl. cbn [rbind].
  rewrite linalg_norm_sq, Hzero, njit_div_zero.
  reflexivity.
Qed.

(** An exhaustive detector fitted on the two points (3, 3) and (1, 2). *)
Definition two_feature_points : Matrix := [[3; 3]; [1; 2]].

Definition fitted_on_two_features : ABOD unit :=
  fst (unit_fit two_feature_points (__init__ tt 5 "default")).

Lemma fitted_on_two_features_fields :
  snd (unit_fit two_feature_points (__init__ tt 5 "default")) = Ok tt
  /\ X_train_ fitted_on_two_features = Some two_feature_points
  /\ n_train_ fitted_on_two_features = Some 2%nat
  /\ method fitted_on_two_features = "default"%string
  /\ is_some (decision_scores_ fitted_on_two_features) = true.
Proof.
  unfold fitted_on_two_features, unit_fit.
  rewrite (fit_default_run unit check_parameter_spec (fun b => b)
             (fun _ b => b) (__init__ tt 5 "default") two_feature_points
             eq_refl eq_refl).
  repeat split.
Qed.

(** C6, at a failing input.  The guard of [_calculate_wocs] compares whole
    arrays; it does not test the norm of the displacement.  [fit] accepts the
    two training points (3, 3) and (1, 2), [decision_function] accepts the
    one-feature query point (3) without comparing feature counts, the pair of
    the two training rows is retained because neither row equals the query
    array, the subtraction broadcasts to the zero displacement, and the
    division by its squared norm raises ZeroDivisionError, which escapes
    [decision_function]. *)
Theorem one_feature_query_divides_by_zero :
  snd (unit_fit two_feature_points (__init__ tt 5 "default")) = Ok tt
  /\ check_array [[3]] = Ok [[3]]
  /\ array_equal [3; 3] [3] || array_equal [1; 2] [3] = false
  /\ _wcos [3] [3; 3] [1; 2] = Raise ZeroDivisionError
  /\ _calculate_wocs [3] two_feature_points [0; 1]%nat
     = Raise ZeroDivisionError
  /\ unit_decision_function fitted_on_two_features [[3]]
     = Raise ZeroDivisionError.
Proof.
  destruct fitted_on_two_features_fields as (Hfit & HX & Hn & Hm & Hds).
  assert (Hloop : forall rest wcos_list,
             wocs_loop [3] two_feature_points ((0, 1)%nat :: rest) wcos_list
             = Raise ZeroDivisionError).
  { intros rest wcos_list.
    apply (wocs_loop_zero_displacement 3 [3; 3] [1; 2]);
      [apply le_n|reflexivity|repeat constructor|reflexivity|reflexivity]. }
  assert (Hscore : _calculate_wocs [3] two_feature_points [0; 1]%nat
                   = Raise ZeroDivisionError).
  { unfold _calculate_wocs. cbn [combinations2 map app].
    rewrite Hloop. reflexivity. }
  split; [exact Hfit|]. split; [reflexivity|].
  split.
  { apply orb_false_iff. split; apply array_equal_false; intros E;
      apply (f_equal (@length R)) in E; simpl in E; lia. }
  split.
  { unfold _wcos.
    rewrite (np_sub_broadcast 3 [3; 3]) by apply le_n.
    rewrite (np_sub_broadcast 3 [1; 2]) by apply le_n.
    cbn [rbind map]. unfold np_dot. cbn [length Nat.eqb rbind].
    rewrite linalg_norm_sq.
    replace (dot [3 - 3; 3 - 3] [3 - 3; 3 - 3]) with 0
      by (unfold dot; simpl; ring).
    rewrite njit_div_zero. reflexivity. }
  split; [exact Hscore|].
  unfold unit_decision_function, decision_function.
  rewrite HX, Hn, Hds, Hm.
  cbn [is_some andb check_is_fitted rbind].
  replace (check_array [[3]]) with (Ok [[3]]) by reflexivity.
  cbn [rbind String.eqb Ascii.eqb Bool.eqb].
  unfold _decision_function_default. rewrite HX, Hn.
  cbn [length seq pred_loop rbind attr].
  replace (getrow [[3]] 0) with (Ok [3]) by reflexivity.
  cbn [rbind seq]. rewrite Hscore. reflexivity.
Qed.

(** * Which indices [fit] hands to the scorer *)

(** The scores [fit] publishes do not show whether a training point was in
    its own index list, since the pairs that contain it are skipped.  The
    list itself is seen through [fit_with]: for any scorer put in the place
    of [_calculate_wocs], which index lists does it receive? *)




Section NeighborFlow.

Variable BaseState : Type.
Variable check_parameter : Z -> Z -> Z -> result unit.
Variable _set_n_classes : BaseState -> BaseState.
Variable _process_decision_scores : list npfloat -> BaseState -> BaseState.

Local Abbreviation ABOD := (ABOD BaseState).
Local Abbreviation fitting' := (fitting BaseState).
Local Abbreviation fitted' :=
  (fitted BaseState _set_n_classes _process_decision_scores).




End NeighborFlow.


(** ** A neighbour query that returns the point itself *)



